(** * TimeKeeper Pro: breadcrumb ingestion, departure detection and sync

    A shallow embedding of the server routes of [server/routes.ts] together
    with the two storage implementations of the repository: the in-memory
    [MemStorage] and the Postgres-backed [DrizzleStorage].

    Modelling conventions:
    - a JS [Map] / SQL table is a list of rows in insertion (heap) order;
    - ids produced by [randomUUID()] / [gen_random_uuid()] and the current
      time ([new Date()] / SQL [now()]) are inputs of the operations;
    - timestamps are milliseconds since the epoch, as [Z];
    - JS numbers obtained from coordinates are real numbers; [parseFloat]
      and [Number.prototype.toString] are left abstract (section variables);
    - a thrown exception is [Throw msg], [msg] being [Some m] for an [Error]
      with message [m] and [None] for any other thrown value. *)

From Stdlib Require Import String List ZArith Bool Lia Reals Lra.
From Stdlib Require Import Sorting.Sorted Sorting.Permutation.
Import ListNotations.

Local Open Scope string_scope.
Local Open Scope Z_scope.

(** ** Data model ([shared/schema.ts]) *)

Record location := mkLocation {
  loc_lat : R;
  loc_lng : R;
  loc_address : string
}.

Record time_entry := mkTimeEntry {
  te_id : string;
  te_employeeId : string;
  te_clockInTime : Z;
  te_clockOutTime : option Z;
  te_clockInLocation : option location;
  te_clockOutLocation : option location;
  (** [totalHours] is the string produced by [toFixed(2)]; we keep the
      number of hundredths of an hour it denotes. *)
  te_totalHours : option Z;
  te_isActive : bool
}.

Record insert_time_entry := mkInsertTimeEntry {
  ite_employeeId : string;
  ite_clockInTime : Z;
  ite_clockOutTime : option Z;
  ite_clockInLocation : option location;
  ite_clockOutLocation : option location;
  ite_isActive : option bool
}.

(** The partial update sent by the clock-out route. *)
Record time_entry_update := mkTimeEntryUpdate {
  upd_clockOutTime : Z;
  upd_clockOutLocation : option location;
  upd_totalHours : Z;
  upd_isActive : bool
}.

Record breadcrumb := mkBreadcrumb {
  bc_id : string;
  bc_timeEntryId : string;
  bc_timestamp : Z;
  bc_latitude : string;
  bc_longitude : string;
  bc_accuracy : option string;
  bc_address : option string
}.

Record insert_breadcrumb := mkInsertBreadcrumb {
  ib_timeEntryId : string;
  ib_latitude : string;
  ib_longitude : string;
  ib_accuracy : option string;
  ib_address : option string
}.

Record departure := mkDeparture {
  dep_id : string;
  dep_timeEntryId : string;
  dep_timestamp : Z;
  dep_fromLocation : location;
  dep_toLocation : location;
  dep_distance : option string;
  dep_synced : bool
}.

Record insert_departure := mkInsertDeparture {
  idp_timeEntryId : string;
  idp_fromLocation : location;
  idp_toLocation : location;
  idp_distance : option string
}.

(** The persisted state: the four tables / maps. Employees are only needed
    through their ids (foreign key of [time_entries.employee_id]). *)
Record db := mkDb {
  employees : list string;
  timeEntries : list time_entry;
  locationBreadcrumbs : list breadcrumb;
  locationDepartures : list departure
}.

Inductive result (A : Type) : Type :=
| Ok (a : A)
| Throw (msg : option string).
Arguments Ok {A} a.
Arguments Throw {A} msg.

(** ** Helpers *)

(** [Map.prototype.set]: replaces the entry of an existing key in place,
    appends a new key at the end. *)
Fixpoint map_set {A : Type} (key : A -> string) (v : A) (l : list A) : list A :=
  match l with
  | [] => [v]
  | x :: l' => if String.eqb (key x) (key v) then v :: l' else x :: map_set key v l'
  end.

(** A stable sort by an integer key, as [Array.prototype.sort] with the
    comparator [(a, b) => k(a) - k(b)] (the sort is stable since ES2019). *)
Fixpoint insert_by {A : Type} (k : A -> Z) (x : A) (l : list A) : list A :=
  match l with
  | [] => [x]
  | y :: l' => if k x <=? k y then x :: l else y :: insert_by k x l'
  end.

Fixpoint sort_by {A : Type} (k : A -> Z) (l : list A) : list A :=
  match l with
  | [] => []
  | x :: l' => insert_by k x (sort_by k l')
  end.

Definition set_departure_synced (d : departure) : departure :=
  {| dep_id := dep_id d; dep_timeEntryId := dep_timeEntryId d;
     dep_timestamp := dep_timestamp d; dep_fromLocation := dep_fromLocation d;
     dep_toLocation := dep_toLocation d; dep_distance := dep_distance d;
     dep_synced := true |}.

Definition is_active (e : time_entry) : bool :=
  te_isActive e &&
  match te_clockOutTime e with Some _ => false | None => true end.

Definition apply_time_entry_update (u : time_entry_update) (e : time_entry) : time_entry :=
  {| te_id := te_id e; te_employeeId := te_employeeId e;
     te_clockInTime := te_clockInTime e;
     te_clockOutTime := Some (upd_clockOutTime u);
     te_clockInLocation := te_clockInLocation e;
     te_clockOutLocation := upd_clockOutLocation u;
     te_totalHours := Some (upd_totalHours u);
     te_isActive := upd_isActive u |}.

Definition with_timeEntries (st : db) (l : list time_entry) : db :=
  mkDb (employees st) l (locationBreadcrumbs st) (locationDepartures st).
Definition with_breadcrumbs (st : db) (l : list breadcrumb) : db :=
  mkDb (employees st) (timeEntries st) l (locationDepartures st).
Definition with_departures (st : db) (l : list departure) : db :=
  mkDb (employees st) (timeEntries st) (locationBreadcrumbs st) l.

(** [Array.prototype.slice(0, n)] for an integer [n]: a negative [n]
    counts from the end. *)
Definition slice0 {A : Type} (l : list A) (n : Z) : list A :=
  if 0 <=? n then firstn (Z.to_nat n) l
  else firstn (Z.to_nat (Z.of_nat (length l) + n)) l.

(** ** The storage interface ([IStorage]) *)

Record Store := mkStore {
  getTimeEntry : db -> string -> option time_entry;
  getActiveTimeEntry : db -> string -> option time_entry;
  createTimeEntry : db -> insert_time_entry -> string -> result (db * time_entry);
  updateTimeEntry : db -> string -> time_entry_update -> result (db * option time_entry);
  getBreadcrumbsByTimeEntry : db -> string -> list breadcrumb;
  createBreadcrumb : db -> insert_breadcrumb -> string -> Z -> result (db * breadcrumb);
  getUnsyncedDepartures : db -> list departure;
  createDeparture : db -> insert_departure -> string -> Z -> result (db * departure);
  markDepartureSynced : db -> string -> db
}.

(** ** [MemStorage] (the in-memory implementation) *)

Module MemStorage.

Definition getTimeEntry (st : db) (id : string) : option time_entry :=
  find (fun e => String.eqb (te_id e) id) (timeEntries st).

Definition getActiveTimeEntry (st : db) (employeeId : string) : option time_entry :=
  find (fun e => String.eqb (te_employeeId e) employeeId && is_active e) (timeEntries st).

Definition createTimeEntry (st : db) (ins : insert_time_entry) (id : string)
  : result (db * time_entry) :=
  let e := {| te_id := id; te_employeeId := ite_employeeId ins;
              te_clockInTime := ite_clockInTime ins;
              te_clockOutTime := ite_clockOutTime ins;
              te_clockInLocation := ite_clockInLocation ins;
              te_clockOutLocation := ite_clockOutLocation ins;
              te_totalHours := None;
              te_isActive := match ite_isActive ins with Some b => b | None => true end |} in
  Ok (with_timeEntries st (map_set te_id e (timeEntries st)), e).

(** [{ ...timeEntry, ...updates }] stored back under the same key. *)
Definition updateTimeEntry (st : db) (id : string) (u : time_entry_update)
  : result (db * option time_entry) :=
  match getTimeEntry st id with
  | None => Ok (st, None)
  | Some e =>
      let e' := apply_time_entry_update u e in
      Ok (with_timeEntries st (map_set te_id e' (timeEntries st)), Some e')
  end.

Definition getBreadcrumbsByTimeEntry (st : db) (timeEntryId : string) : list breadcrumb :=
  sort_by bc_timestamp
    (filter (fun b => String.eqb (bc_timeEntryId b) timeEntryId) (locationBreadcrumbs st)).

Definition createBreadcrumb (st : db) (ins : insert_breadcrumb) (id : string) (now : Z)
  : result (db * breadcrumb) :=
  let b := {| bc_id := id; bc_timeEntryId := ib_timeEntryId ins; bc_timestamp := now;
              bc_latitude := ib_latitude ins; bc_longitude := ib_longitude ins;
              bc_accuracy := ib_accuracy ins; bc_address := ib_address ins |} in
  Ok (with_breadcrumbs st (map_set bc_id b (locationBreadcrumbs st)), b).

Definition getUnsyncedDepartures (st : db) : list departure :=
  filter (fun d => negb (dep_synced d)) (locationDepartures st).

Definition createDeparture (st : db) (ins : insert_departure) (id : string) (now : Z)
  : result (db * departure) :=
  let d := {| dep_id := id; dep_timeEntryId := idp_timeEntryId ins; dep_timestamp := now;
              dep_fromLocation := idp_fromLocation ins; dep_toLocation := idp_toLocation ins;
              dep_distance := idp_distance ins; dep_synced := false |} in
  Ok (with_departures st (map_set dep_id d (locationDepartures st)), d).

Definition markDepartureSynced (st : db) (id : string) : db :=
  match find (fun d => String.eqb (dep_id d) id) (locationDepartures st) with
  | Some d => with_departures st (map_set dep_id (set_departure_synced d) (locationDepartures st))
  | None => st
  end.

(** [Array.from(values).filter(...).sort((a, b) => b.clockInTime - a.clockInTime)],
    then [limit ? entries.slice(0, limit) : entries]; [limit] is [undefined]
    ([None]) or an integer, and [0] is falsy. *)
Definition getTimeEntriesByEmployee (st : db) (employeeId : string) (limit : option Z)
  : list time_entry :=
  let entries := sort_by (fun e => - te_clockInTime e)
                   (filter (fun e => String.eqb (te_employeeId e) employeeId) (timeEntries st)) in
  match limit with
  | Some n => if Z.eqb n 0 then entries else slice0 entries n
  | None => entries
  end.

Definition getDeparturesByTimeEntry (st : db) (timeEntryId : string) : list departure :=
  sort_by dep_timestamp
    (filter (fun d => String.eqb (dep_timeEntryId d) timeEntryId) (locationDepartures st)).

Definition store : Store :=
  mkStore getTimeEntry getActiveTimeEntry createTimeEntry updateTimeEntry
    getBreadcrumbsByTimeEntry createBreadcrumb getUnsyncedDepartures
    createDeparture markDepartureSynced.

End MemStorage.

(** ** [DrizzleStorage] (the Postgres implementation)

    Rows are kept in heap order. A [select] without [orderBy] returns the
    rows in heap order here; SQL itself guarantees no order (see
    [DrizzleStorage.unsynced_result]). Inserts check the primary key and
    the foreign keys; the acceptance of the strings written to the
    [numeric] columns of [location_breadcrumbs] and [location_departures]
    by Postgres is a parameter ([pg_checks]). *)

Module DrizzleStorage.

Record pg_checks := mkPgChecks {
  pg_breadcrumb_ok : insert_breadcrumb -> bool;
  pg_distance_ok : option string -> bool
}.

Definition has_time_entry (st : db) (id : string) : bool :=
  existsb (fun e => String.eqb (te_id e) id) (timeEntries st).

(** [total_hours] is [numeric(4, 2)]: at most 99.99 in absolute value. *)
Definition total_hours_fits (h : Z) : bool := (-10000 <? h) && (h <? 10000).

Section WithChecks.
Variable pg : pg_checks.

Definition getTimeEntry (st : db) (id : string) : option time_entry :=
  find (fun e => String.eqb (te_id e) id) (timeEntries st).

Definition getActiveTimeEntry (st : db) (employeeId : string) : option time_entry :=
  find (fun e => String.eqb (te_employeeId e) employeeId && is_active e) (timeEntries st).

Definition createTimeEntry (st : db) (ins : insert_time_entry) (id : string)
  : result (db * time_entry) :=
  if negb (existsb (String.eqb (ite_employeeId ins)) (employees st))
  then Throw (Some "insert or update on table time_entries violates foreign key constraint")
  else if has_time_entry st id
  then Throw (Some "duplicate key value violates unique constraint")
  else
    let e := {| te_id := id; te_employeeId := ite_employeeId ins;
                te_clockInTime := ite_clockInTime ins;
                te_clockOutTime := ite_clockOutTime ins;
                te_clockInLocation := ite_clockInLocation ins;
                te_clockOutLocation := ite_clockOutLocation ins;
                te_totalHours := None;
                te_isActive := match ite_isActive ins with Some b => b | None => true end |} in
    Ok (with_timeEntries st (timeEntries st ++ [e]), e).

(** [.set(updates)]: drizzle leaves out of the [SET] list the keys whose
    value is [undefined], so a clock-out without [clockOutLocation] keeps
    the stored one. *)
Definition apply_set (u : time_entry_update) (e : time_entry) : time_entry :=
  {| te_id := te_id e; te_employeeId := te_employeeId e;
     te_clockInTime := te_clockInTime e;
     te_clockOutTime := Some (upd_clockOutTime u);
     te_clockInLocation := te_clockInLocation e;
     te_clockOutLocation := match upd_clockOutLocation u with
                            | Some l => Some l
                            | None => te_clockOutLocation e
                            end;
     te_totalHours := Some (upd_totalHours u);
     te_isActive := upd_isActive u |}.

Definition updateTimeEntry (st : db) (id : string) (u : time_entry_update)
  : result (db * option time_entry) :=
  if negb (total_hours_fits (upd_totalHours u))
  then Throw (Some "numeric field overflow")
  else
    let rows := map (fun e => if String.eqb (te_id e) id
                              then apply_set u e else e) (timeEntries st) in
    Ok (with_timeEntries st rows, find (fun e => String.eqb (te_id e) id) rows).

(** [.orderBy(desc(locationBreadcrumbs.timestamp))]; rows with equal
    timestamps are left in heap order, one of the orders SQL allows. *)
Definition getBreadcrumbsByTimeEntry (st : db) (timeEntryId : string) : list breadcrumb :=
  sort_by (fun b => - bc_timestamp b)
    (filter (fun b => String.eqb (bc_timeEntryId b) timeEntryId) (locationBreadcrumbs st)).

Definition createBreadcrumb (st : db) (ins : insert_breadcrumb) (id : string) (now : Z)
  : result (db * breadcrumb) :=
  if negb (has_time_entry st (ib_timeEntryId ins))
  then Throw (Some "insert or update on table location_breadcrumbs violates foreign key constraint")
  else if negb (pg_breadcrumb_ok pg ins)
  then Throw (Some "invalid input syntax for type numeric")
  else if existsb (fun b => String.eqb (bc_id b) id) (locationBreadcrumbs st)
  then Throw (Some "duplicate key value violates unique constraint")
  else
    let b := {| bc_id := id; bc_timeEntryId := ib_timeEntryId ins; bc_timestamp := now;
                bc_latitude := ib_latitude ins; bc_longitude := ib_longitude ins;
                bc_accuracy := ib_accuracy ins; bc_address := ib_address ins |} in
    Ok (with_breadcrumbs st (locationBreadcrumbs st ++ [b]), b).

Definition getUnsyncedDepartures (st : db) : list departure :=
  filter (fun d => negb (dep_synced d)) (locationDepartures st).

Definition createDeparture (st : db) (ins : insert_departure) (id : string) (now : Z)
  : result (db * departure) :=
  if negb (has_time_entry st (idp_timeEntryId ins))
  then Throw (Some "insert or update on table location_departures violates foreign key constraint")
  else if negb (pg_distance_ok pg (idp_distance ins))
  then Throw (Some "numeric field overflow")
  else if existsb (fun d => String.eqb (dep_id d) id) (locationDepartures st)
  then Throw (Some "duplicate key value violates unique constraint")
  else
    let d := {| dep_id := id; dep_timeEntryId := idp_timeEntryId ins; dep_timestamp := now;
                dep_fromLocation := idp_fromLocation ins; dep_toLocation := idp_toLocation ins;
                dep_distance := idp_distance ins; dep_synced := false |} in
    Ok (with_departures st (locationDepartures st ++ [d]), d).

(** [update(...).set({ synced: true }).where(eq(id, ...))]. *)
Definition markDepartureSynced (st : db) (id : string) : db :=
  with_departures st
    (map (fun d => if String.eqb (dep_id d) id then set_departure_synced d else d)
         (locationDepartures st)).

(** [.where(eq(employeeId, ...)).orderBy(desc(clockInTime)).limit(limit)], [limit]
    defaulting to 20; the pg dialect of drizzle emits the [LIMIT] clause only
    for a limit [>= 0], so a negative limit returns every row. Rows with
    equal clock-in times are left in heap order. *)
Definition getTimeEntriesByEmployee (st : db) (employeeId : string) (limit : option Z)
  : list time_entry :=
  let n := match limit with Some n => n | None => 20 end in
  let rows := sort_by (fun e => - te_clockInTime e)
                (filter (fun e => String.eqb (te_employeeId e) employeeId) (timeEntries st)) in
  if 0 <=? n then firstn (Z.to_nat n) rows else rows.

(** [.orderBy(desc(locationDepartures.timestamp))] *)
Definition getDeparturesByTimeEntry (st : db) (timeEntryId : string) : list departure :=
  sort_by (fun d => - dep_timestamp d)
    (filter (fun d => String.eqb (dep_timeEntryId d) timeEntryId) (locationDepartures st)).

Definition store : Store :=
  mkStore getTimeEntry getActiveTimeEntry createTimeEntry updateTimeEntry
    getBreadcrumbsByTimeEntry createBreadcrumb getUnsyncedDepartures
    createDeparture markDepartureSynced.

End WithChecks.

(** The results SQL allows for [getUnsyncedDepartures] (no [orderBy]): the
    unsynced rows in any order. *)
Definition unsynced_result (st : db) (r : list departure) : Prop :=
  Permutation r (filter (fun d => negb (dep_synced d)) (locationDepartures st)).

End DrizzleStorage.

(** ** Request bodies and their validation *)

(** JSON values of a request body; the payloads of numbers, objects and
    arrays play no role, those values are all refused where a string is
    expected. *)
Inductive json :=
| JString (s : string)
| JNumber (r : R)
| JBool (b : bool)
| JNull
| JOther.

Record breadcrumb_body := mkBreadcrumbBody {
  body_latitude : option json;
  body_longitude : option json;
  body_accuracy : option json;
  body_address : option json
}.

(** [z.string()] *)
Definition zod_string (j : option json) : option string :=
  match j with Some (JString s) => Some s | _ => None end.

(** [z.string().nullable().optional()] *)
Definition zod_nullish_string (j : option json) : option (option string) :=
  match j with
  | None | Some JNull => Some None
  | Some (JString s) => Some (Some s)
  | Some _ => None
  end.

(** [insertLocationBreadcrumbSchema.parse({ ...req.body, timeEntryId })]:
    drizzle-zod maps the [decimal] columns latitude, longitude and accuracy
    and the [text] column address to [z.string()], the nullable ones
    optional and nullable; [id] and [timestamp] are omitted. *)
Definition parse_breadcrumb (timeEntryId : string) (b : breadcrumb_body)
  : option insert_breadcrumb :=
  match zod_string (body_latitude b), zod_string (body_longitude b),
        zod_nullish_string (body_accuracy b), zod_nullish_string (body_address b) with
  | Some lat, Some lng, Some acc, Some addr =>
      Some (mkInsertBreadcrumb timeEntryId lat lng acc addr)
  | _, _, _, _ => None
  end.

(** ** Clock-in and clock-out routes *)

(** *** The clock-in body

    A JavaScript value as the route may receive it in [req.body]. An object
    is the list of its properties; [VDate] is a [Date] object. *)
#[local] Set Warnings "-register-all".
Inductive jsvalue :=
| VString (s : string)
| VNumber (r : R)
| VBool (b : bool)
| VNull
| VArray (l : list jsvalue)
| VObject (fs : list (string * jsvalue))
| VDate (t : Z).

(** The values [JSON.parse] (behind [express.json()]) can produce: no
    [Date] anywhere inside. *)
Fixpoint from_json (v : jsvalue) : bool :=
  match v with
  | VDate _ => false
  | VArray l => forallb from_json l
  | VObject fs => forallb (fun kv => from_json (snd kv)) fs
  | _ => true
  end.

(** Property lookup; of repeated keys the last one counts, as for
    [JSON.parse]. [None] is [undefined]. *)
Definition jget (k : string) (fs : list (string * jsvalue)) : option jsvalue :=
  fold_left (fun acc kv => if String.eqb k (fst kv) then Some (snd kv) else acc) fs None.

(** [z.string()] *)
Definition z_string (v : option jsvalue) : option string :=
  match v with Some (VString s) => Some s | _ => None end.

(** [z.number()] *)
Definition z_number (v : option jsvalue) : option R :=
  match v with Some (VNumber r) => Some r | _ => None end.

(** [z.date()] *)
Definition z_date (v : option jsvalue) : option Z :=
  match v with Some (VDate t) => Some t | _ => None end.

(** [z.date().nullable().optional()] *)
Definition z_nullish_date (v : option jsvalue) : option (option Z) :=
  match v with
  | None | Some VNull => Some None
  | Some (VDate t) => Some (Some t)
  | Some _ => None
  end.

(** [z.boolean().optional()] *)
Definition z_optional_boolean (v : option jsvalue) : option (option bool) :=
  match v with
  | None => Some None
  | Some (VBool b) => Some (Some b)
  | Some _ => None
  end.

(** drizzle-zod's schema of a [jsonb] column, nullable and optional: any
    JSON value. *)
Definition z_nullish_jsonb (v : option jsvalue) : option (option jsvalue) :=
  match v with
  | None | Some VNull => Some None
  | Some x => if from_json x then Some (Some x) else None
  end.

(** [z.object({ lat: z.number(), lng: z.number(), address: z.string() }).optional()] *)
Definition z_optional_location (v : option jsvalue) : option (option location) :=
  match v with
  | None => Some None
  | Some (VObject fs) =>
      match z_number (jget "lat" fs), z_number (jget "lng" fs), z_string (jget "address" fs) with
      | Some lat, Some lng, Some addr => Some (Some (mkLocation lat lng addr))
      | _, _, _ => None
      end
  | Some _ => None
  end.

(** The stored [clock_out_location] of this model is a location: a [jsonb]
    value is read as one when it has that shape. *)
Definition location_of_json (v : jsvalue) : option location :=
  match z_optional_location (Some v) with Some l => l | None => None end.

Record clock_in_data := mkClockInData {
  ci_employeeId : string;
  ci_clockInTime : Z;
  ci_clockOutTime : option Z;
  ci_clockInLocation : option location;
  ci_clockOutLocation : option jsvalue;
  ci_isActive : option bool
}.

(** [insertTimeEntrySchema.extend({ clockInLocation: ... }).parse(req.body)].
    [insertTimeEntrySchema] is [createInsertSchema(timeEntries)] without
    [id] and [totalHours]: [employeeId] ([varchar], not null) is
    [z.string()], [clockInTime] ([timestamp], not null, no default) is
    [z.date()], [clockOutTime] is a nullable optional date,
    [clockOutLocation] a nullable optional [jsonb] value and [isActive]
    (with a default) an optional boolean. A body that is not an object
    fails. *)
Definition parse_clock_in (body : option jsvalue) : option clock_in_data :=
  match body with
  | Some (VObject fs) =>
      match z_string (jget "employeeId" fs), z_date (jget "clockInTime" fs),
            z_nullish_date (jget "clockOutTime" fs),
            z_optional_location (jget "clockInLocation" fs),
            z_nullish_jsonb (jget "clockOutLocation" fs),
            z_optional_boolean (jget "isActive" fs) with
      | Some emp, Some tin, Some tout, Some lin, Some lout, Some act =>
          Some (mkClockInData emp tin tout lin lout act)
      | _, _, _, _, _, _ => None
      end
  | _ => None
  end.

(** [POST /api/time-entries/clock-in]: a [ZodError] answers 400, an active
    session 400, and [createTimeEntry({ ...validatedData, clockInTime: new
    Date(), isActive: true })] 201, or 500 when it throws. *)
Definition clock_in_request (S : Store) (st : db) (body : option jsvalue) (id : string) (now : Z)
  : db * Z * option time_entry :=
  match parse_clock_in body with
  | None => (st, 400, None)
  | Some v =>
      match getActiveTimeEntry S st (ci_employeeId v) with
      | Some _ => (st, 400, None)
      | None =>
          match createTimeEntry S st
                  (mkInsertTimeEntry (ci_employeeId v) now (ci_clockOutTime v)
                     (ci_clockInLocation v)
                     (match ci_clockOutLocation v with
                      | Some x => location_of_json x
                      | None => None
                      end)
                     (Some true)) id with
          | Ok (st', e) => (st', 201, Some e)
          | Throw _ => (st, 500, None)
          end
      end
  end.

(** *** IEEE-754 doubles for [totalHours]

    A finite positive double is [m * 2 ^ k] with a 53-bit significand [m]
    ([2 ^ 52 <= m < 2 ^ 53]). [round_div53 p q] is the double nearest to
    [p / q] (for [p, q > 0]), ties to an even significand, as JS [/] and the
    conversion of an integer to a number compute it. *)

(** [p / q = fst (scaled p q k) / snd (scaled p q k) * 2 ^ k]. *)
Definition scaled (p q k : Z) : Z * Z :=
  if k <? 0 then (p * 2 ^ (- k), q) else (p, q * 2 ^ k).

(** The exponent [k] with [2 ^ 52 <= p / (q * 2 ^ k) < 2 ^ 53]. *)
Definition exponent53 (p q : Z) : Z :=
  let k0 := Z.log2 p - Z.log2 q - 53 in
  if fst (scaled p q k0) / snd (scaled p q k0) <? 2 ^ 53 then k0 else k0 + 1.

(** [num / den] rounded to the nearest integer, ties to even. *)
Definition round_half_even (num den : Z) : Z :=
  let m0 := num / den in
  let r := num mod den in
  if 2 * r <? den then m0
  else if den <? 2 * r then m0 + 1
  else if Z.even m0 then m0 else m0 + 1.

(** The double nearest to [p / q], as a pair (significand, exponent). *)
Definition round_div53 (p q : Z) : Z * Z :=
  let k := exponent53 p q in
  (round_half_even (fst (scaled p q k)) (snd (scaled p q k)), k).

(** [clockOutTime.getTime() - clockInTime.getTime()]: the double nearest to
    the integer difference [d]. *)
Definition round_int53 (d : Z) : Z :=
  let mk := round_div53 (Z.abs d) 1 in
  Z.sgn d * (if snd mk <? 0 then fst mk / 2 ^ (- snd mk) else fst mk * 2 ^ snd mk).

(** [Number.prototype.toFixed(2)] of the non-negative double [m * 2 ^ k], in
    hundredths: the integer [n] for which [n / 100 - m * 2 ^ k] is as close to
    zero as possible, the larger [n] on a tie. *)
Definition toFixed2_dyadic (m k : Z) : Z :=
  if k <? 0 then (200 * m + 2 ^ (- k)) / (2 * 2 ^ (- k)) else 100 * m * 2 ^ k.

(** [((clockOutTime.getTime() - clockInTime.getTime()) / (1000 * 60 * 60)).toFixed(2)]
    in hundredths of an hour: the difference and the quotient are doubles,
    and [toFixed] formats a negative number as ["-"] followed by the
    formatting of its magnitude. *)
Definition toFixed2_hours (elapsed_ms : Z) : Z :=
  let d := round_int53 elapsed_ms in
  let mk := round_div53 (Z.abs d) 3600000 in
  Z.sgn d * toFixed2_dyadic (fst mk) (snd mk).

(** [POST /api/time-entries/:id/clock-out], after the body has been parsed. *)
Definition clock_out (S : Store) (st : db) (id : string)
  (clockOutLocation : option location) (now : Z) : db * Z * option time_entry :=
  match getTimeEntry S st id with
  | None => (st, 404, None)
  | Some e =>
      match te_clockOutTime e with
      | Some _ => (st, 400, None)
      | None =>
          let totalHours := toFixed2_hours (now - te_clockInTime e) in
          match updateTimeEntry S st id (mkTimeEntryUpdate now clockOutLocation totalHours false) with
          | Ok (st', r) => (st', 200, r)
          | Throw _ => (st, 500, None)
          end
      end
  end.

(** ** Breadcrumb route, departure detection and sync *)

Section Routes.

(** JS [parseFloat] on the stored coordinate strings. *)
Variable parseFloat : string -> R.
(** JS [Number.prototype.toString]. *)
Variable numberToString : R -> string.
(** [syncToGoogleSheets]: the call to the external ledger, which resolves
    ([Ok]) or throws. *)
Variable syncToGoogleSheets : departure -> result unit.

(** [Math.sqrt(Math.pow(lat2 - lat1, 2) + Math.pow(lng2 - lng1, 2)) * 111000] *)
Definition distance_m (lat1 lng1 lat2 lng2 : R) : R :=
  (sqrt ((lat2 - lat1) ^ 2 + (lng2 - lng1) ^ 2) * 111000)%R.

(** [address || "Unknown location"] *)
Definition or_unknown_location (a : option string) : string :=
  match a with
  | Some s => if String.eqb s "" then "Unknown location" else s
  | None => "Unknown location"
  end.

(** [allBreadcrumbs.length > 1 ? allBreadcrumbs[allBreadcrumbs.length - 2] : -] *)
Definition previous_breadcrumb (all : list breadcrumb) : option breadcrumb :=
  if (1 <? length all)%nat then nth_error all (length all - 2) else None.

Definition breadcrumb_distance (prev cur : breadcrumb) : R :=
  distance_m (parseFloat (bc_latitude prev)) (parseFloat (bc_longitude prev))
             (parseFloat (bc_latitude cur)) (parseFloat (bc_longitude cur)).

Definition departure_insert (timeEntryId : string) (prev cur : breadcrumb) : insert_departure :=
  let lat1 := parseFloat (bc_latitude prev) in
  let lng1 := parseFloat (bc_longitude prev) in
  let lat2 := parseFloat (bc_latitude cur) in
  let lng2 := parseFloat (bc_longitude cur) in
  {| idp_timeEntryId := timeEntryId;
     idp_fromLocation := mkLocation lat1 lng1 (or_unknown_location (bc_address prev));
     idp_toLocation := mkLocation lat2 lng2 (or_unknown_location (bc_address cur));
     idp_distance := Some (numberToString (breadcrumb_distance prev cur)) |}.

Record append_outcome := mkAppendOutcome {
  ao_db : db;
  ao_status : Z;
  ao_breadcrumb : option breadcrumb;
  ao_departure : option departure
}.

(** [POST /api/time-entries/:timeEntryId/breadcrumbs]. [ao_departure] is
    the departure the handler created, if any. *)
Definition append_breadcrumb (S : Store) (st : db) (timeEntryId : string)
  (body : breadcrumb_body) (bcId depId : string) (now : Z) : append_outcome :=
  match parse_breadcrumb timeEntryId body with
  | None => mkAppendOutcome st 400 None None
  | Some ins =>
      match createBreadcrumb S st ins bcId now with
      | Throw _ => mkAppendOutcome st 500 None None
      | Ok (st1, bc) =>
          match previous_breadcrumb (getBreadcrumbsByTimeEntry S st1 timeEntryId) with
          | None => mkAppendOutcome st1 201 (Some bc) None
          | Some prev =>
              if Rlt_dec 100 (breadcrumb_distance prev bc) then
                match createDeparture S st1 (departure_insert timeEntryId prev bc) depId now with
                | Throw _ => mkAppendOutcome st1 500 None None
                | Ok (st2, dep) =>
                    let st3 := match syncToGoogleSheets dep with
                               | Ok _ => markDepartureSynced S st2 (dep_id dep)
                               | Throw _ => st2
                               end in
                    mkAppendOutcome st3 201 (Some bc) (Some dep)
                end
              else mkAppendOutcome st1 201 (Some bc) None
          end
      end
  end.

Record sync_result := mkSyncResult {
  sr_id : string;
  sr_success : bool;
  sr_error : option string
}.

(** [error instanceof Error ? error.message : 'Unknown error'] *)
Definition error_message (m : option string) : string :=
  match m with Some s => s | None => "Unknown error" end.

(** The [for ... of] loop of [POST /api/sync-departures]. *)
Fixpoint sync_each (S : Store) (st : db) (ds : list departure) : db * list sync_result :=
  match ds with
  | [] => (st, [])
  | d :: ds' =>
      let step := match syncToGoogleSheets d with
                  | Ok _ => (markDepartureSynced S st (dep_id d), mkSyncResult (dep_id d) true None)
                  | Throw m => (st, mkSyncResult (dep_id d) false (Some (error_message m)))
                  end in
      let rest := sync_each S (fst step) ds' in
      (fst rest, snd step :: snd rest)
  end.

Record sync_response := mkSyncResponse {
  synced_count : nat;
  failed_count : nat
}.

(** [POST /api/sync-departures] given the rows [unsynced] returned by
    [getUnsyncedDepartures]: the new state, the response body and the
    [results] broadcast as [SYNC_COMPLETE]. *)
Definition bulk_sync (S : Store) (st : db) (unsynced : list departure)
  : db * sync_response * list sync_result :=
  let r := sync_each S st unsynced in
  (fst r,
   mkSyncResponse (length (filter sr_success (snd r)))
                  (length (filter (fun x => negb (sr_success x)) (snd r))),
   snd r).

Definition sync_departures (S : Store) (st : db) : db * sync_response * list sync_result :=
  bulk_sync S st (getUnsyncedDepartures S st).

End Routes.

(** The two breadcrumbs the detector of [append_breadcrumb] compares: the
    one it reads as the previous breadcrumb and the one just created. *)
Definition detection_pair (S : Store) (st : db) (timeEntryId : string)
  (body : breadcrumb_body) (bcId : string) (now : Z) : option (breadcrumb * breadcrumb) :=
  match parse_breadcrumb timeEntryId body with
  | None => None
  | Some ins =>
      match createBreadcrumb S st ins bcId now with
      | Throw _ => None
      | Ok (st1, bc) =>
          match previous_breadcrumb (getBreadcrumbsByTimeEntry S st1 timeEntryId) with
          | None => None
          | Some prev => Some (prev, bc)
          end
      end
  end.

(** ** Sessions: active count *)

Definition count_active (st : db) (employeeId : string) : nat :=
  length (filter (fun e => String.eqb (te_employeeId e) employeeId && is_active e)
                 (timeEntries st)).

Definition at_most_one_active (st : db) : Prop :=
  forall employeeId, (count_active st employeeId <= 1)%nat.

(** The value [h] (hundredths of an hour) is [ms] milliseconds expressed in
    hours and rounded to two decimal places: [h / 100] is a hundredth nearest
    to [ms / 3600000] (either one when [ms] lies halfway). *)
Definition rounded_hundredths_of_hours (ms h : Z) : Prop :=
  ms - 18000 <= 36000 * h <= ms + 18000.

(** ** Departure sync state *)

Definition synced_of (st : db) (id : string) : option bool :=
  option_map dep_synced (find (fun d => String.eqb (dep_id d) id) (locationDepartures st)).

Inductive storage_op :=
| OpCreateDeparture (ins : insert_departure) (id : string) (now : Z)
| OpMarkDepartureSynced (id : string)
| OpCreateBreadcrumb (ins : insert_breadcrumb) (id : string) (now : Z)
| OpCreateTimeEntry (ins : insert_time_entry) (id : string)
| OpUpdateTimeEntry (id : string) (u : time_entry_update).

Definition run_op (S : Store) (st : db) (op : storage_op) : db :=
  match op with
  | OpCreateDeparture ins id now =>
      match createDeparture S st ins id now with Ok (st', _) => st' | Throw _ => st end
  | OpMarkDepartureSynced id => markDepartureSynced S st id
  | OpCreateBreadcrumb ins id now =>
      match createBreadcrumb S st ins id now with Ok (st', _) => st' | Throw _ => st end
  | OpCreateTimeEntry ins id =>
      match createTimeEntry S st ins id with Ok (st', _) => st' | Throw _ => st end
  | OpUpdateTimeEntry id u =>
      match updateTimeEntry S st id u with Ok (st', _) => st' | Throw _ => st end
  end.

Definition run_ops (S : Store) (st : db) (ops : list storage_op) : db :=
  fold_left (run_op S) ops st.

(** Every departure created along [ops] gets an id not yet in the store
    (true of [randomUUID()] identifiers). *)
Fixpoint creates_fresh (S : Store) (st : db) (ops : list storage_op) : bool :=
  match ops with
  | [] => true
  | op :: ops' =>
      match op with
      | OpCreateDeparture _ id _ =>
          negb (existsb (fun d => String.eqb (dep_id d) id) (locationDepartures st))
      | _ => true
      end && creates_fresh S (run_op S st op) ops'
  end.

Definition is_failure {A : Type} (r : result A) : bool :=
  match r with Ok _ => false | Throw _ => true end.

(** ** Concrete scenarios *)

Definition accept_all : DrizzleStorage.pg_checks :=
  DrizzleStorage.mkPgChecks (fun _ => true) (fun _ => true).

Definition open_entry (id employeeId : string) (t : Z) : time_entry :=
  mkTimeEntry id employeeId t None None None None true.

Definition closed_entry (id employeeId : string) (t1 t2 : Z) : time_entry :=
  mkTimeEntry id employeeId t1 (Some t2) None None (Some 0) false.

Definition crumb (id timeEntryId : string) (t : Z) (lat lng : string) : breadcrumb :=
  mkBreadcrumb id timeEntryId t lat lng None None.

Definition body_at (lat lng : string) : breadcrumb_body :=
  mkBreadcrumbBody (Some (JString lat)) (Some (JString lng)) None None.

Definition st_one_crumb : db :=
  mkDb ["e1"] [open_entry "s1" "e1" 0] [crumb "b1" "s1" 1000 "40.0000" "-75.0000"] [].

Definition st_two_crumbs : db :=
  mkDb ["e1"] [open_entry "s1" "e1" 0]
    [crumb "b1" "s1" 1000 "40.0000" "-75.0000"; crumb "b2" "s1" 2000 "40.0010" "-75.0000"] [].

Definition st_three_crumbs : db :=
  mkDb ["e1"] [open_entry "s1" "e1" 0]
    [crumb "b1" "s1" 1000 "40.0000" "-75.0000"; crumb "b2" "s1" 2000 "40.0010" "-75.0000";
     crumb "b3" "s1" 3000 "40.0100" "-75.0000"] [].

Definition st_closed_session : db :=
  mkDb ["e1"] [closed_entry "s1" "e1" 0 3600000] [] [].

Definition st_no_sessions : db := mkDb ["e1"] [] [] [].

Definition st_long_session : db := mkDb ["e1"] [open_entry "s1" "e1" 0] [] [].

Definition sample_departure (id : string) (t : Z) : departure :=
  mkDeparture id "s1" t (mkLocation 0 0 "A") (mkLocation 1 0 "B") None false.

Definition st_two_unsynced : db :=
  mkDb ["e1"] [open_entry "s1" "e1" 0] []
    [sample_departure "d1" 1000; sample_departure "d2" 2000].

(** Breadcrumbs listed by non-decreasing capture timestamp. *)
Definition nondecreasing_timestamps (l : list breadcrumb) : Prop :=
  Sorted (fun a b => bc_timestamp a <= bc_timestamp b) l.

(** ** Bulk sync bookkeeping *)

(** The ids of the departures of [ds] whose publication succeeds. *)
Definition synced_ids (sync : departure -> result unit) (ds : list departure) : list string :=
  map dep_id (filter (fun d => negb (is_failure (sync d))) ds).

(** A departure after every id of [ids] has been marked synced. *)
Definition mark_ids (ids : list string) (d : departure) : departure :=
  if existsb (String.eqb (dep_id d)) ids then set_departure_synced d else d.

Definition op_fresh (st : db) (op : storage_op) : bool :=
  match op with
  | OpCreateDeparture _ id _ =>
      negb (existsb (fun d => String.eqb (dep_id d) id) (locationDepartures st))
  | _ => true
  end.

Ltac destruct_ifs :=
  repeat match goal with
         | |- context [if ?b then _ else _] => destruct b
         end.

(** ** Proofs *)

Example mem_listing_two :
  map bc_id (MemStorage.getBreadcrumbsByTimeEntry st_two_crumbs "s1") = ["b1"; "b2"].
Proof. reflexivity. Qed.

Example drizzle_listing_two :
  map bc_id (DrizzleStorage.getBreadcrumbsByTimeEntry st_two_crumbs "s1") = ["b2"; "b1"].
Proof. reflexivity. Qed.

Example mem_detection_three :
  option_map (fun p => (bc_id (fst p), bc_id (snd p)))
    (detection_pair MemStorage.store st_three_crumbs "s1" (body_at "40.0105" "-75.0000") "b4" 4000)
  = Some ("b3", "b4").
Proof. reflexivity. Qed.

Example drizzle_detection_three :
  option_map (fun p => (bc_id (fst p), bc_id (snd p)))
    (detection_pair (DrizzleStorage.store accept_all) st_three_crumbs "s1"
       (body_at "40.0105" "-75.0000") "b4" 4000)
  = Some ("b2", "b4").
Proof. reflexivity. Qed.

Example drizzle_detection_one :
  option_map (fun p => (bc_id (fst p), bc_id (snd p)))
    (detection_pair (DrizzleStorage.store accept_all) st_one_crumb "s1"
       (body_at "40.0010" "-75.0000") "b2" 2000)
  = Some ("b2", "b2").
Proof. reflexivity. Qed.

(** *** Stable sort *)

Section SortBy.
Context {A : Type} (k : A -> Z).

Let key_le (a b : A) : Prop := k a <= k b.

Lemma insert_by_perm (x : A) (l : list A) : Permutation (insert_by k x l) (x :: l).
Proof.
  induction l as [|y l IH]; simpl; [constructor; constructor|].
  destruct (k x <=? k y); [apply Permutation_refl|].
  eapply perm_trans; [apply perm_skip, IH | apply perm_swap].
Qed.

Lemma sort_by_perm (l : list A) : Permutation (sort_by k l) l.
Proof.
  induction l as [|x l IH]; simpl; [constructor|].
  eapply perm_trans; [apply insert_by_perm | apply perm_skip, IH].
Qed.

Lemma insert_by_hd (x y : A) (l : list A) :
  k y < k x -> HdRel key_le y l -> HdRel key_le y (insert_by k x l).
Proof.
  intros Hlt Hhd. destruct l as [|z l]; simpl.
  - constructor. unfold key_le. lia.
  - destruct (k x <=? k z); constructor; unfold key_le; [lia|].
    inversion Hhd; assumption.
Qed.

Lemma insert_by_sorted (x : A) (l : list A) :
  Sorted key_le l -> Sorted key_le (insert_by k x l).
Proof.
  induction l as [|y l IH]; intros Hs; simpl.
  - repeat constructor.
  - inversion Hs as [|? ? Hl Hhd]; subst.
    destruct (k x <=? k y) eqn:E.
    + constructor; [assumption|]. constructor. unfold key_le. lia.
    + constructor; [apply IH; assumption|].
      apply insert_by_hd; [lia|assumption].
Qed.

Lemma sort_by_sorted (l : list A) : Sorted key_le (sort_by k l).
Proof.
  induction l as [|x l IH]; simpl; [constructor|].
  apply insert_by_sorted; assumption.
Qed.

End SortBy.

(** *** Breadcrumb listing *)

Lemma mem_listing_nondecreasing (st : db) (timeEntryId : string) :
  nondecreasing_timestamps (MemStorage.getBreadcrumbsByTimeEntry st timeEntryId).
Proof. apply (sort_by_sorted bc_timestamp). Qed.

(** C8 (code_bug). The listing of [DrizzleStorage] is ordered by
    [desc(timestamp)]: for the two breadcrumbs of session [s1] captured at
    1000 and 2000 it returns the later one first, so its order is not
    non-decreasing (the in-memory listing is, [mem_listing_nondecreasing]). *)
Theorem drizzle_listing_not_nondecreasing :
  ~ nondecreasing_timestamps (DrizzleStorage.getBreadcrumbsByTimeEntry st_two_crumbs "s1").
Proof.
  unfold nondecreasing_timestamps.
  replace (DrizzleStorage.getBreadcrumbsByTimeEntry st_two_crumbs "s1")
    with [crumb "b2" "s1" 2000 "40.0010" "-75.0000"; crumb "b1" "s1" 1000 "40.0000" "-75.0000"]
    by reflexivity.
  intros H. inversion H as [|? ? _ Hhd]; subst.
  inversion Hhd as [|? ? Hle]; subst. simpl in Hle. lia.
Qed.

(** *** Departure detection *)

Lemma distance_m_same (lat lng : R) : distance_m lat lng lat lng = 0%R.
Proof.
  unfold distance_m.
  replace ((lat - lat) ^ 2 + (lng - lng) ^ 2)%R with 0%R by ring.
  rewrite sqrt_0. ring.
Qed.

Lemma breadcrumb_distance_self (parseFloat : string -> R) (b : breadcrumb) :
  breadcrumb_distance parseFloat b b = 0%R.
Proof. apply distance_m_same. Qed.

(** C2 (code_bug). Appending a fourth breadcrumb (captured at 4000) to a
    session whose breadcrumbs were captured at 1000, 2000 and 3000: with
    [DrizzleStorage] the detector compares the new breadcrumb with the one
    captured at 2000 ([allBreadcrumbs[length - 2]] of a list sorted newest
    first), not with the one captured at 3000 that immediately precedes it;
    with [MemStorage] it compares it with the one captured at 3000. *)
Theorem drizzle_detector_reads_wrong_predecessor :
  detection_pair (DrizzleStorage.store accept_all) st_three_crumbs "s1"
    (body_at "40.0105" "-75.0000") "b4" 4000
  = Some (crumb "b2" "s1" 2000 "40.0010" "-75.0000",
          crumb "b4" "s1" 4000 "40.0105" "-75.0000")
  /\ detection_pair MemStorage.store st_three_crumbs "s1"
       (body_at "40.0105" "-75.0000") "b4" 4000
  = Some (crumb "b3" "s1" 3000 "40.0100" "-75.0000",
          crumb "b4" "s1" 4000 "40.0105" "-75.0000").
Proof. split; reflexivity. Qed.

(** C1 (code_bug). A session with one breadcrumb at (40.0000, -75.0000);
    appending one at (40.0010, -75.0000), about 111 m away, through the
    route backed by [DrizzleStorage]: the listing is newest first, so
    [allBreadcrumbs[length - 2]] is the new breadcrumb itself, the computed
    distance is 0 and no departure is created, whatever [parseFloat] reads. *)
Theorem drizzle_second_breadcrumb_creates_no_departure
  (parseFloat : string -> R) (numberToString : R -> string)
  (syncToGoogleSheets : departure -> result unit) :
  let o := append_breadcrumb parseFloat numberToString syncToGoogleSheets
             (DrizzleStorage.store accept_all) st_one_crumb "s1"
             (body_at "40.0010" "-75.0000") "b2" "d1" 2000 in
  ao_status o = 201 /\ ao_departure o = None
  /\ locationDepartures (ao_db o) = [].
Proof.
  cbn -[breadcrumb_distance Rlt_dec].
  destruct (Rlt_dec 100 _) as [H|H].
  - rewrite breadcrumb_distance_self in H. lra.
  - repeat split.
Qed.

(** The departure the route creates comes from the pair of breadcrumbs the
    detector compares. *)
Lemma append_breadcrumb_departure_inv
  (parseFloat : string -> R) (numberToString : R -> string)
  (syncToGoogleSheets : departure -> result unit)
  (S : Store) (st : db) (sid : string) (body : breadcrumb_body)
  (bcId depId : string) (now : Z) (d : departure) :
  ao_departure (append_breadcrumb parseFloat numberToString syncToGoogleSheets
                  S st sid body bcId depId now) = Some d ->
  exists prev cur st1 st2,
    detection_pair S st sid body bcId now = Some (prev, cur)
    /\ (100 < breadcrumb_distance parseFloat prev cur)%R
    /\ createDeparture S st1 (departure_insert parseFloat numberToString sid prev cur) depId now
       = Ok (st2, d).
Proof.
  unfold append_breadcrumb, detection_pair.
  destruct (parse_breadcrumb sid body) as [ins|]; simpl; [|discriminate].
  destruct (createBreadcrumb S st ins bcId now) as [[st1 bc]|m]; simpl; [|discriminate].
  destruct (previous_breadcrumb (getBreadcrumbsByTimeEntry S st1 sid)) as [prev|];
    simpl; [|discriminate].
  destruct (Rlt_dec 100 (breadcrumb_distance parseFloat prev bc)) as [Hlt|]; simpl;
    [|discriminate].
  destruct (createDeparture S st1 (departure_insert parseFloat numberToString sid prev bc) depId now)
    as [[st2 dep]|m] eqn:Ecreate; simpl; [|discriminate].
  intros Hd. inversion Hd; subst.
  exists prev, bc, st1, st2. repeat split; assumption.
Qed.

Lemma createDeparture_locations (pg : DrizzleStorage.pg_checks) (S : Store)
  (st st' : db) (ins : insert_departure) (id : string) (now : Z) (d : departure) :
  S = MemStorage.store \/ S = DrizzleStorage.store pg ->
  createDeparture S st ins id now = Ok (st', d) ->
  dep_fromLocation d = idp_fromLocation ins /\ dep_toLocation d = idp_toLocation ins.
Proof.
  intros [-> | ->]; simpl.
  - unfold MemStorage.createDeparture. intros H; inversion H; subst; simpl; auto.
  - unfold DrizzleStorage.createDeparture.
    destruct (negb _); [discriminate|].
    destruct (negb _); [discriminate|].
    destruct (existsb _ _); [discriminate|].
    intros H; inversion H; subst; simpl; auto.
Qed.

(** C10. When the detector creates a Departure (with either storage), a
    previous or new breadcrumb with no address gives a from or to snapshot
    whose address is the literal ["Unknown location"]. *)
Theorem departure_address_defaults_to_unknown
  (parseFloat : string -> R) (numberToString : R -> string)
  (syncToGoogleSheets : departure -> result unit) (pg : DrizzleStorage.pg_checks)
  (st : db) (sid : string) (body : breadcrumb_body) (bcId depId : string) (now : Z)
  (d : departure) (S : Store) :
  S = MemStorage.store \/ S = DrizzleStorage.store pg ->
  ao_departure (append_breadcrumb parseFloat numberToString syncToGoogleSheets
                  S st sid body bcId depId now) = Some d ->
  exists prev cur,
    detection_pair S st sid body bcId now = Some (prev, cur)
    /\ (bc_address prev = None -> loc_address (dep_fromLocation d) = "Unknown location")
    /\ (bc_address cur = None -> loc_address (dep_toLocation d) = "Unknown location").
Proof.
  intros HS Hd.
  destruct (append_breadcrumb_departure_inv _ _ _ _ _ _ _ _ _ _ _ Hd)
    as (prev & cur & st1 & st2 & Hpair & _ & Hcreate).
  destruct (createDeparture_locations pg S _ _ _ _ _ _ HS Hcreate) as [Hfrom Hto].
  exists prev, cur. split; [exact Hpair|].
  rewrite Hfrom, Hto. simpl.
  split; intros Ha; rewrite Ha; reflexivity.
Qed.

Lemma departure_address_defaults_to_unknown_witness :
  exists d prev cur,
    ao_departure (append_breadcrumb (fun s => if String.eqb s "40.0010" then 1%R else 0%R)
                    (fun _ => "111000") (fun _ => Ok tt) MemStorage.store st_one_crumb "s1"
                    (body_at "40.0010" "-75.0000") "b2" "d1" 2000) = Some d
    /\ detection_pair MemStorage.store st_one_crumb "s1" (body_at "40.0010" "-75.0000") "b2" 2000
       = Some (prev, cur)
    /\ (bc_address prev = None -> loc_address (dep_fromLocation d) = "Unknown location")
    /\ (bc_address cur = None -> loc_address (dep_toLocation d) = "Unknown location").
Proof.
  destruct (ao_departure (append_breadcrumb (fun s => if String.eqb s "40.0010" then 1%R else 0%R)
                    (fun _ => "111000") (fun _ => Ok tt) MemStorage.store st_one_crumb "s1"
                    (body_at "40.0010" "-75.0000") "b2" "d1" 2000)) as [d|] eqn:E.
  - destruct (departure_address_defaults_to_unknown _ _ _ accept_all _ _ _ _ _ _ d
                MemStorage.store (or_introl eq_refl) E) as (prev & cur & H).
    exists d, prev, cur. split; [reflexivity | exact H].
  - exfalso. revert E. cbn -[Rlt_dec breadcrumb_distance].
    destruct (Rlt_dec _ _) as [_|Hn]; [discriminate|]. intros _. apply Hn.
    unfold breadcrumb_distance, distance_m. simpl.
    replace ((1 - 0) * ((1 - 0) * 1) + (0 - 0) * ((0 - 0) * 1))%R with 1%R by ring.
    rewrite sqrt_1. lra.
Defined.

(** *** Validation of breadcrumb appends *)

Lemma parse_breadcrumb_session (sid : string) (body : breadcrumb_body) (ins : insert_breadcrumb) :
  parse_breadcrumb sid body = Some ins -> ib_timeEntryId ins = sid.
Proof.
  unfold parse_breadcrumb.
  destruct (zod_string (body_latitude body)); [|discriminate].
  destruct (zod_string (body_longitude body)); [|discriminate].
  destruct (zod_nullish_string (body_accuracy body)); [|discriminate].
  destruct (zod_nullish_string (body_address body)); [|discriminate].
  intros H; inversion H; reflexivity.
Qed.

Lemma map_set_in {A : Type} (key : A -> string) (v : A) (l : list A) :
  In v (map_set key v l).
Proof.
  induction l as [|x l IH]; simpl; [auto|].
  destruct (String.eqb (key x) (key v)); simpl; auto.
Qed.

Lemma departure_ops_keep_breadcrumbs (pg : DrizzleStorage.pg_checks) (S : Store) :
  S = MemStorage.store \/ S = DrizzleStorage.store pg ->
  (forall st st' ins id now d, createDeparture S st ins id now = Ok (st', d) ->
     locationBreadcrumbs st' = locationBreadcrumbs st)
  /\ (forall st id, locationBreadcrumbs (markDepartureSynced S st id) = locationBreadcrumbs st).
Proof.
  intros [-> | ->]; split; simpl.
  - unfold MemStorage.createDeparture. intros * H; inversion H; reflexivity.
  - intros st id. unfold MemStorage.markDepartureSynced.
    destruct (find _ _); reflexivity.
  - unfold DrizzleStorage.createDeparture. intros * H.
    destruct (negb _); [discriminate|].
    destruct (negb _); [discriminate|].
    destruct (existsb _ _); [discriminate|].
    inversion H; reflexivity.
  - reflexivity.
Qed.

Lemma append_keeps_created_breadcrumbs
  (parseFloat : string -> R) (numberToString : R -> string)
  (syncToGoogleSheets : departure -> result unit) (pg : DrizzleStorage.pg_checks)
  (S : Store) (st st1 : db) (sid : string) (body : breadcrumb_body) (ins : insert_breadcrumb)
  (b : breadcrumb) (bcId depId : string) (now : Z) :
  S = MemStorage.store \/ S = DrizzleStorage.store pg ->
  parse_breadcrumb sid body = Some ins ->
  createBreadcrumb S st ins bcId now = Ok (st1, b) ->
  locationBreadcrumbs (ao_db (append_breadcrumb parseFloat numberToString syncToGoogleSheets
                                S st sid body bcId depId now))
  = locationBreadcrumbs st1.
Proof.
  intros HS Hparse Hcreate.
  destruct (departure_ops_keep_breadcrumbs pg S HS) as [Hdep Hmark].
  unfold append_breadcrumb. rewrite Hparse, Hcreate.
  destruct (previous_breadcrumb _) as [prev|]; [|reflexivity].
  destruct (Rlt_dec _ _); [|reflexivity].
  destruct (createDeparture S st1 _ depId now) as [[st2 dep]|m] eqn:E; [|reflexivity].
  simpl. destruct (syncToGoogleSheets dep).
  - rewrite Hmark. eapply Hdep; exact E.
  - eapply Hdep; exact E.
Qed.

(** C5 (counterexample). The session [s1] is clocked out, yet a breadcrumb
    append to it with well-formed coordinates is accepted (201) and the
    breadcrumb is stored: the route never checks that the session is
    active. *)
Lemma append_to_closed_session_accepted :
  let o := append_breadcrumb (fun _ => 0%R) (fun _ => "") (fun _ => Ok tt)
             (DrizzleStorage.store accept_all) st_closed_session "s1"
             (body_at "40.0000" "-75.0000") "b1" "d1" 5000000 in
  DrizzleStorage.getActiveTimeEntry st_closed_session "e1" = None
  /\ option_map is_active (DrizzleStorage.getTimeEntry st_closed_session "s1") = Some false
  /\ ao_status o = 201
  /\ map bc_id (locationBreadcrumbs (ao_db o)) = ["b1"].
Proof. repeat split. Qed.

(** C5 (amended). The breadcrumb route rejects a request with 400 and no
    change of state exactly when its body fails the insert schema; it does
    not check that the session is active or that the coordinates are
    finite. With [MemStorage] every request that passes the schema stores
    its breadcrumb, whatever the session; with [DrizzleStorage] an unknown
    session makes the insert fail (500, no change of state), and for an
    existing session, active or not, the breadcrumb is stored whenever
    Postgres accepts its numeric fields. *)
Theorem breadcrumb_append_checks_only_body_shape
  (parseFloat : string -> R) (numberToString : R -> string)
  (syncToGoogleSheets : departure -> result unit) (pg : DrizzleStorage.pg_checks)
  (st : db) (sid : string) (body : breadcrumb_body) (bcId depId : string) (now : Z) :
  (parse_breadcrumb sid body = None ->
     forall S, append_breadcrumb parseFloat numberToString syncToGoogleSheets
                 S st sid body bcId depId now = mkAppendOutcome st 400 None None)
  /\ (forall ins, parse_breadcrumb sid body = Some ins ->
        exists b, bc_id b = bcId /\ bc_timeEntryId b = sid
          /\ In b (locationBreadcrumbs
                     (ao_db (append_breadcrumb parseFloat numberToString syncToGoogleSheets
                               MemStorage.store st sid body bcId depId now))))
  /\ (forall ins, parse_breadcrumb sid body = Some ins ->
        DrizzleStorage.has_time_entry st sid = false ->
        append_breadcrumb parseFloat numberToString syncToGoogleSheets
          (DrizzleStorage.store pg) st sid body bcId depId now = mkAppendOutcome st 500 None None)
  /\ (forall ins, parse_breadcrumb sid body = Some ins ->
        DrizzleStorage.has_time_entry st sid = true ->
        DrizzleStorage.pg_breadcrumb_ok pg ins = true ->
        existsb (fun b => String.eqb (bc_id b) bcId) (locationBreadcrumbs st) = false ->
        exists b, bc_id b = bcId /\ bc_timeEntryId b = sid
          /\ In b (locationBreadcrumbs
                     (ao_db (append_breadcrumb parseFloat numberToString syncToGoogleSheets
                               (DrizzleStorage.store pg) st sid body bcId depId now)))).
Proof.
  split; [|split; [|split]].
  - intros Hnone S. unfold append_breadcrumb. rewrite Hnone. reflexivity.
  - intros ins Hparse.
    pose proof (parse_breadcrumb_session _ _ _ Hparse) as Hsid.
    set (b := mkBreadcrumb bcId (ib_timeEntryId ins) now (ib_latitude ins)
                (ib_longitude ins) (ib_accuracy ins) (ib_address ins)).
    rewrite (append_keeps_created_breadcrumbs _ _ _ accept_all MemStorage.store st
               (with_breadcrumbs st (map_set bc_id b (locationBreadcrumbs st)))
               sid body ins b bcId depId now (or_introl eq_refl) Hparse eq_refl).
    exists b. split; [reflexivity|]. split; [exact Hsid|]. apply map_set_in.
  - intros ins Hparse Hnot.
    pose proof (parse_breadcrumb_session _ _ _ Hparse) as Hsid.
    unfold append_breadcrumb. rewrite Hparse. simpl.
    unfold DrizzleStorage.createBreadcrumb. rewrite Hsid, Hnot. reflexivity.
  - intros ins Hparse Hhas Hok Hfresh.
    pose proof (parse_breadcrumb_session _ _ _ Hparse) as Hsid.
    set (b := mkBreadcrumb bcId (ib_timeEntryId ins) now (ib_latitude ins)
                (ib_longitude ins) (ib_accuracy ins) (ib_address ins)).
    assert (Hc : createBreadcrumb (DrizzleStorage.store pg) st ins bcId now
                 = Ok (with_breadcrumbs st (locationBreadcrumbs st ++ [b]), b)).
    { simpl. unfold DrizzleStorage.createBreadcrumb. rewrite <- Hsid in Hhas.
      rewrite Hhas, Hok, Hfresh. reflexivity. }
    rewrite (append_keeps_created_breadcrumbs _ _ _ pg _ st _ sid body ins b bcId depId now
               (or_intror eq_refl) Hparse Hc).
    exists b. split; [reflexivity|]. split; [exact Hsid|].
    simpl. apply in_or_app. right. left. reflexivity.
Qed.

Lemma breadcrumb_append_checks_only_body_shape_witness :
  append_breadcrumb (fun _ => 0%R) (fun _ => "") (fun _ => Ok tt)
    MemStorage.store st_closed_session "s1"
    (mkBreadcrumbBody (Some (JNumber 40)) (Some (JString "-75.0000")) None None) "b1" "d1" 0
  = mkAppendOutcome st_closed_session 400 None None
  /\ (exists b, bc_id b = "b1" /\ bc_timeEntryId b = "s1"
        /\ In b (locationBreadcrumbs
                   (ao_db (append_breadcrumb (fun _ => 0%R) (fun _ => "") (fun _ => Ok tt)
                             (DrizzleStorage.store accept_all) st_closed_session "s1"
                             (body_at "40.0000" "-75.0000") "b1" "d1" 0)))).
Proof.
  split.
  - apply (proj1 (breadcrumb_append_checks_only_body_shape (fun _ => 0%R) (fun _ => "")
                    (fun _ => Ok tt) accept_all st_closed_session "s1"
                    (mkBreadcrumbBody (Some (JNumber 40)) (Some (JString "-75.0000")) None None)
                    "b1" "d1" 0)).
    reflexivity.
  - apply (proj2 (proj2 (proj2 (breadcrumb_append_checks_only_body_shape (fun _ => 0%R)
             (fun _ => "") (fun _ => Ok tt) accept_all st_closed_session "s1"
             (body_at "40.0000" "-75.0000") "b1" "d1" 0)))
             (mkInsertBreadcrumb "s1" "40.0000" "-75.0000" None None));
      reflexivity.
Defined.

(** *** Clock-out *)

Lemma round_half_even_spec (num den : Z) : 0 < den ->
  2 * Z.abs (round_half_even num den * den - num) <= den.
Proof.
  intros Hd. unfold round_half_even.
  pose proof (Z.div_mod num den ltac:(lia)) as Hdm.
  pose proof (Z.mod_pos_bound num den Hd) as Hb.
  set (m0 := num / den) in *. set (r := num mod den) in *.
  destruct (2 * r <? den) eqn:E1; [apply Z.ltb_lt in E1; nia|].
  apply Z.ltb_ge in E1.
  destruct (den <? 2 * r) eqn:E2; [apply Z.ltb_lt in E2; nia|].
  apply Z.ltb_ge in E2.
  destruct (Z.even m0); nia.
Qed.

Lemma round_half_even_exact (num : Z) : round_half_even num 1 = num.
Proof. unfold round_half_even. rewrite Z.div_1_r, Z.mod_1_r. reflexivity. Qed.

Lemma log2_le_52 (p : Z) : 0 < p < 2 ^ 53 -> 0 <= Z.log2 p <= 52.
Proof.
  intros Hp. split; [apply Z.log2_nonneg|].
  apply Z.lt_succ_r. apply Z.log2_lt_pow2; lia.
Qed.

Lemma pow2_mul_le (p l e : Z) : 0 <= l -> 0 <= e -> 2 ^ l <= p -> 2 ^ (l + e) <= p * 2 ^ e.
Proof.
  intros Hl He Hp. rewrite Z.pow_add_r by lia.
  apply Z.mul_le_mono_nonneg_r; [apply Z.pow_nonneg; lia|exact Hp].
Qed.

Lemma exponent53_int (p : Z) : 0 < p < 2 ^ 53 -> exponent53 p 1 = Z.log2 p - 52.
Proof.
  intros Hp. pose proof (log2_le_52 p Hp) as Hl.
  pose proof (Z.log2_spec p (proj1 Hp)) as [Hl1 _].
  unfold exponent53, scaled. change (Z.log2 1) with 0.
  replace (Z.log2 p - 0 - 53 <? 0) with true by lia. simpl fst; simpl snd.
  rewrite Z.div_1_r.
  pose proof (pow2_mul_le p (Z.log2 p) (- (Z.log2 p - 0 - 53)) ltac:(lia) ltac:(lia) Hl1) as H.
  replace (Z.log2 p + - (Z.log2 p - 0 - 53)) with 53 in H by lia.
  destruct (_ <? 2 ^ 53) eqn:E; [apply Z.ltb_lt in E; lia|lia].
Qed.

Lemma round_int53_exact (d : Z) : Z.abs d < 2 ^ 53 -> round_int53 d = d.
Proof.
  intros Hd. unfold round_int53, round_div53.
  destruct (Z.eq_dec d 0) as [->|Hnz]; [reflexivity|].
  assert (Hp : 0 < Z.abs d < 2 ^ 53) by lia.
  rewrite (exponent53_int _ Hp). simpl fst; simpl snd.
  pose proof (log2_le_52 _ Hp) as Hl.
  unfold scaled. destruct (Z.log2 (Z.abs d) - 52 <? 0) eqn:E; simpl fst; simpl snd.
  - rewrite round_half_even_exact.
    rewrite Z.div_mul by (apply Z.pow_nonzero; lia).
    destruct d; simpl; lia.
  - replace (Z.log2 (Z.abs d) - 52) with 0 by lia. simpl.
    rewrite round_half_even_exact. destruct d; simpl; lia.
Qed.

Lemma exponent53_hours (p : Z) : 0 < p < 2 ^ 53 ->
  exponent53 p 3600000 < 0 /\ 2 ^ 52 * 3600000 <= p * 2 ^ (- exponent53 p 3600000).
Proof.
  intros Hp. pose proof (log2_le_52 p Hp) as Hl.
  pose proof (Z.log2_spec p (proj1 Hp)) as [Hl1 _].
  unfold exponent53, scaled. change (Z.log2 3600000) with 21.
  replace (Z.log2 p - 21 - 53 <? 0) with true by lia. simpl fst; simpl snd.
  pose proof (pow2_mul_le p (Z.log2 p) (- (Z.log2 p - 21 - 53)) ltac:(lia) ltac:(lia) Hl1) as H.
  replace (Z.log2 p + - (Z.log2 p - 21 - 53)) with 74 in H by lia.
  assert (H74 : 2 ^ 52 * 3600000 <= 2 ^ 74) by (compute; discriminate).
  destruct (_ <? 2 ^ 53) eqn:E.
  - split; [lia|]. lia.
  - apply Z.ltb_ge in E. split; [lia|].
    pose proof (Z.mul_div_le (p * 2 ^ (- (Z.log2 p - 21 - 53))) 3600000 ltac:(lia)) as Hm.
    assert (Heq : 2 ^ (- (Z.log2 p - 21 - 53)) = 2 * 2 ^ (- (Z.log2 p - 21 - 53 + 1))).
    { rewrite <- Z.pow_succ_r by lia. f_equal. lia. }
    rewrite Heq in Hm, E.
    change (2 ^ 53) with (2 * 2 ^ 52) in E. lia.
Qed.

Lemma toFixed2_hours_nearest (ms : Z) : Z.abs ms < 2 ^ 53 ->
  ms - 18000 <= 36000 * toFixed2_hours ms <= ms + 18000.
Proof.
  intros Hms. unfold toFixed2_hours. rewrite (round_int53_exact ms Hms).
  destruct (Z.eq_dec ms 0) as [->|Hnz]; [simpl; lia|].
  assert (Hp : 0 < Z.abs ms < 2 ^ 53) by lia.
  destruct (exponent53_hours _ Hp) as [Hk HA].
  unfold round_div53. simpl fst; simpl snd.
  set (k := exponent53 (Z.abs ms) 3600000) in *.
  unfold scaled. replace (k <? 0) with true by lia. simpl fst; simpl snd.
  pose proof (round_half_even_spec (Z.abs ms * 2 ^ (- k)) 3600000 ltac:(lia)) as HB.
  set (m := round_half_even (Z.abs ms * 2 ^ (- k)) 3600000) in *.
  unfold toFixed2_dyadic. replace (k <? 0) with true by lia.
  set (D := 2 ^ (- k)) in *.
  assert (HD : 0 < D) by (apply Z.pow_pos_nonneg; lia).
  set (p := Z.abs ms) in *.
  pose proof (Z.div_mod (200 * m + D) (2 * D) ltac:(lia)) as Hdm.
  pose proof (Z.mod_pos_bound (200 * m + D) (2 * D) ltac:(lia)) as Hb.
  set (n := (200 * m + D) / (2 * D)) in *.
  assert (HpD : p * D < 2 ^ 53 * D) by (apply Z.mul_lt_mono_pos_r; lia).
  assert (HDbig : 1800000 < D).
  { change (2 ^ 52) with 4503599627370496 in HA. change (2 ^ 53) with 9007199254740992 in HpD.
    lia. }
  assert (Hn : p - 18000 <= 36000 * n <= p + 18000).
  { split.
    - destruct (Z.le_gt_cases (p - 18000) (36000 * n)) as [H|H]; [exact H|exfalso].
      assert (H' : 36000 * n * D <= (p - 18001) * D) by (apply Z.mul_le_mono_nonneg_r; lia).
      lia.
    - destruct (Z.le_gt_cases (36000 * n) (p + 18000)) as [H|H]; [exact H|exfalso].
      assert (H' : (p + 18001) * D <= 36000 * n * D) by (apply Z.mul_le_mono_nonneg_r; lia).
      lia. }
  clearbody n D m k. subst p.
  destruct (Z.lt_trichotomy ms 0) as [Hneg|[Hz|Hpos]]; [|lia|].
  - rewrite (Z.sgn_neg ms Hneg). rewrite (Z.abs_neq ms) in Hn by lia. lia.
  - rewrite (Z.sgn_pos ms Hpos). rewrite (Z.abs_eq ms) in Hn by lia. lia.
Qed.

Lemma find_map_set_key {A : Type} (key : A -> string) (v : A) (l : list A) :
  find (fun x => String.eqb (key x) (key v)) (map_set key v l) = Some v.
Proof.
  induction l as [|x l IH]; simpl.
  - rewrite String.eqb_refl. reflexivity.
  - destruct (String.eqb (key x) (key v)) eqn:E; simpl.
    + rewrite String.eqb_refl. reflexivity.
    + rewrite E. exact IH.
Qed.

Lemma find_map_update {A : Type} (key : A -> string) (f : A -> A) (k : string) (l : list A) :
  (forall x, key (f x) = key x) ->
  find (fun x => String.eqb (key x) k) (map (fun x => if String.eqb (key x) k then f x else x) l)
  = option_map f (find (fun x => String.eqb (key x) k) l).
Proof.
  intros Hkey. induction l as [|x l IH]; simpl; [reflexivity|].
  destruct (String.eqb (key x) k) eqn:E; simpl.
  - rewrite Hkey, E. reflexivity.
  - rewrite E. exact IH.
Qed.

(** C7 (counterexample). With [DrizzleStorage], a session opened at time 0
    and clocked out 100 hours later is not closed: [totalHours] is
    ["100.00"], which the [numeric(4, 2)] column [total_hours] refuses, the
    update throws, the route answers 500 and the session stays open. *)
Lemma long_session_cannot_clock_out :
  let r := clock_out (DrizzleStorage.store accept_all) st_long_session "s1" None 360000000 in
  r = (st_long_session, 500, None)
  /\ option_map is_active (DrizzleStorage.getTimeEntry (fst (fst r)) "s1") = Some true.
Proof. split; reflexivity. Qed.

(** C7 (amended). Clock-out of an already closed session answers 400 and
    leaves the state unchanged. Clock-out of an open session computes
    [h = toFixed2_hours (closeTime - openTime)], the double quotient of the
    elapsed milliseconds by 3600000 formatted with two decimals: a nearest
    hundredth of the elapsed hours (when the difference is below [2 ^ 53]
    ms). [MemStorage] then closes the session ([clockOutTime],
    [totalHours = h], [isActive = false]); [DrizzleStorage] does so when
    [|h| < 100] hours, and otherwise answers 500 and leaves the session
    open. *)
Theorem clock_out_rounds_hours_and_rejects_closed
  (pg : DrizzleStorage.pg_checks) (st : db) (id : string) (loc : option location) (now : Z)
  (e : time_entry) :
  MemStorage.getTimeEntry st id = Some e ->
  (te_clockOutTime e <> None ->
     clock_out MemStorage.store st id loc now = (st, 400, None)
     /\ clock_out (DrizzleStorage.store pg) st id loc now = (st, 400, None))
  /\ (te_clockOutTime e = None ->
      let h := toFixed2_hours (now - te_clockInTime e) in
      let u := mkTimeEntryUpdate now loc h false in
      (Z.abs (now - te_clockInTime e) < 2 ^ 53 ->
         rounded_hundredths_of_hours (now - te_clockInTime e) h)
      /\ (exists st', clock_out MemStorage.store st id loc now
                        = (st', 200, Some (apply_time_entry_update u e))
            /\ MemStorage.getTimeEntry st' id = Some (apply_time_entry_update u e))
      /\ (DrizzleStorage.total_hours_fits h = true ->
            exists st', clock_out (DrizzleStorage.store pg) st id loc now
                          = (st', 200, Some (DrizzleStorage.apply_set u e))
              /\ DrizzleStorage.getTimeEntry st' id = Some (DrizzleStorage.apply_set u e))
      /\ (DrizzleStorage.total_hours_fits h = false ->
            clock_out (DrizzleStorage.store pg) st id loc now = (st, 500, None))).
Proof.
  intros Hget.
  assert (Hid : te_id e = id).
  { apply find_some in Hget. destruct Hget as [_ Heq]. apply String.eqb_eq. exact Heq. }
  split.
  - intros Hclosed. destruct (te_clockOutTime e) as [t|] eqn:Eout; [|congruence].
    split; unfold clock_out; simpl;
      [rewrite Hget | change (DrizzleStorage.getTimeEntry st id) with (MemStorage.getTimeEntry st id);
                      rewrite Hget];
      rewrite Eout; reflexivity.
  - intros Hopen h u. split; [apply toFixed2_hours_nearest|].
    split; [|split].
    + unfold clock_out; simpl. rewrite Hget, Hopen. fold h. fold u.
      unfold MemStorage.updateTimeEntry. rewrite Hget.
      eexists; split; [reflexivity|].
      unfold MemStorage.getTimeEntry; simpl.
      assert (Hid' : te_id (apply_time_entry_update u e) = id) by (simpl; exact Hid).
      rewrite <- Hid'. apply find_map_set_key.
    + intros Hfits. unfold clock_out; simpl.
      change (DrizzleStorage.getTimeEntry st id) with (MemStorage.getTimeEntry st id).
      rewrite Hget, Hopen. fold h. fold u.
      unfold DrizzleStorage.updateTimeEntry. simpl. rewrite Hfits. simpl.
      rewrite (find_map_update te_id (DrizzleStorage.apply_set u) id (timeEntries st)
                 ltac:(reflexivity)).
      change (find (fun x => String.eqb (te_id x) id) (timeEntries st))
        with (MemStorage.getTimeEntry st id).
      rewrite Hget. simpl.
      eexists; split; [reflexivity|].
      unfold DrizzleStorage.getTimeEntry; simpl.
      rewrite (find_map_update te_id (DrizzleStorage.apply_set u) id (timeEntries st)
                 ltac:(reflexivity)).
      change (find (fun x => String.eqb (te_id x) id) (timeEntries st))
        with (MemStorage.getTimeEntry st id).
      rewrite Hget. reflexivity.
    + intros Hnofit. unfold clock_out; simpl.
      change (DrizzleStorage.getTimeEntry st id) with (MemStorage.getTimeEntry st id).
      rewrite Hget, Hopen. fold h.
      unfold DrizzleStorage.updateTimeEntry. simpl. rewrite Hnofit. reflexivity.
Qed.

(** A session of 54 seconds: the double nearest to [54000 / 3600000] lies
    just below [0.015], so [totalHours] is ["0.01"]. *)
Lemma clock_out_rounds_hours_and_rejects_closed_witness :
  toFixed2_hours (54000 - 0) = 1
  /\ rounded_hundredths_of_hours (54000 - 0) (toFixed2_hours (54000 - 0))
  /\ (exists st', clock_out (DrizzleStorage.store accept_all) st_long_session "s1" None 54000
                  = (st', 200, Some (DrizzleStorage.apply_set
                                       (mkTimeEntryUpdate 54000 None (toFixed2_hours (54000 - 0)) false)
                                       (open_entry "s1" "e1" 0)))
                  /\ DrizzleStorage.getTimeEntry st' "s1"
                     = Some (DrizzleStorage.apply_set
                               (mkTimeEntryUpdate 54000 None (toFixed2_hours (54000 - 0)) false)
                               (open_entry "s1" "e1" 0))).
Proof.
  destruct (clock_out_rounds_hours_and_rejects_closed accept_all st_long_session "s1" None 54000
              (open_entry "s1" "e1" 0) eq_refl) as [_ Hopen].
  destruct (Hopen eq_refl) as (Hr & _ & Hd & _).
  split; [reflexivity|]. split; [apply Hr; reflexivity|]. apply Hd. reflexivity.
Defined.

(** *** Clock-in *)

Lemma find_app_single {A : Type} (f : A -> bool) (l : list A) (x : A) :
  find f l = None -> f x = true -> find f (l ++ [x]) = Some x.
Proof.
  intros Hn Hx. induction l as [|y l IH]; simpl.
  - rewrite Hx. reflexivity.
  - simpl in Hn. destruct (f y); [discriminate|exact (IH Hn)].
Qed.

Lemma jget_some (k : string) (fs : list (string * jsvalue)) (v : jsvalue) :
  jget k fs = Some v -> exists kv, In kv fs /\ snd kv = v.
Proof.
  unfold jget.
  cut (forall acc, fold_left (fun acc kv => if String.eqb k (fst kv) then Some (snd kv) else acc)
                     fs acc = Some v ->
                   acc = Some v \/ exists kv, In kv fs /\ snd kv = v).
  { intros H Hg. destruct (H None Hg) as [Hn|Hex]; [discriminate|exact Hex]. }
  induction fs as [|kv fs IH]; intros acc Hg; simpl in Hg; [left; exact Hg|].
  destruct (IH _ Hg) as [Ha|(kv' & Hin & Hv)].
  - destruct (String.eqb k (fst kv)).
    + right. exists kv. split; [left; reflexivity|congruence].
    + left. exact Ha.
  - right. exists kv'. split; [right; exact Hin|exact Hv].
Qed.

Lemma jget_from_json (k : string) (fs : list (string * jsvalue)) (v : jsvalue) :
  from_json (VObject fs) = true -> jget k fs = Some v -> from_json v = true.
Proof.
  intros Hf Hg. destruct (jget_some _ _ _ Hg) as (kv & Hin & <-).
  simpl in Hf. rewrite forallb_forall in Hf. exact (Hf kv Hin).
Qed.

(** A body carrying a [Date] passes the schema and opens a session. *)
Example clock_in_request_with_date :
  exists st' e, clock_in_request MemStorage.store st_no_sessions
                  (Some (VObject [("employeeId", VString "e1"); ("clockInTime", VDate 0)])) "s1" 5
                = (st', 201, Some e) /\ te_clockInTime e = 5 /\ is_active e = true.
Proof. do 2 eexists. split; [reflexivity|]. split; reflexivity. Qed.

(** C6 (code bug). The schema of [POST /api/time-entries/clock-in] requires
    [clockInTime] to be a [Date], which no JSON body contains (the handler
    sets the clock-in time itself afterwards): every request whose body
    comes from JSON fails validation and answers 400, whatever the store and
    whether or not the worker has an active session; no session is ever
    created. *)
Theorem clock_in_route_refuses_every_json_body
  (S : Store) (st : db) (body : option jsvalue) (id : string) (now : Z) :
  (forall v, body = Some v -> from_json v = true) ->
  parse_clock_in body = None /\ clock_in_request S st body id now = (st, 400, None).
Proof.
  intros Hj.
  assert (Hp : parse_clock_in body = None).
  { destruct body as [v|]; [|reflexivity].
    specialize (Hj v eq_refl).
    destruct v as [| | | | |fs|]; try reflexivity.
    unfold parse_clock_in.
    destruct (jget "clockInTime" fs) as [t|] eqn:Et.
    - pose proof (jget_from_json _ _ _ Hj Et) as Ht.
      destruct t; simpl in Ht; try discriminate Ht; simpl; destruct (z_string _); reflexivity.
    - simpl. destruct (z_string _); reflexivity. }
  split; [exact Hp|]. unfold clock_in_request. rewrite Hp. reflexivity.
Qed.

Lemma clock_in_route_refuses_every_json_body_witness :
  clock_in_request MemStorage.store st_no_sessions
    (Some (VObject [("employeeId", VString "e1");
                    ("clockInTime", VString "2024-01-01T00:00:00.000Z")])) "s1" 0
  = (st_no_sessions, 400, None).
Proof.
  refine (proj2 (clock_in_route_refuses_every_json_body MemStorage.store st_no_sessions _ "s1" 0 _)).
  intros v Hv. injection Hv as <-. reflexivity.
Defined.

(** *** Bulk sync *)

Lemma sync_each_ids (sync : departure -> result unit) (S : Store) (st : db) (ds : list departure) :
  map sr_id (snd (sync_each sync S st ds)) = map dep_id ds.
Proof.
  revert st. induction ds as [|d ds IH]; intros st; simpl; [reflexivity|].
  destruct (sync d); simpl; f_equal; apply IH.
Qed.

Lemma sync_each_success (sync : departure -> result unit) (S : Store) (st : db) (ds : list departure) :
  map sr_success (snd (sync_each sync S st ds)) = map (fun d => negb (is_failure (sync d))) ds.
Proof.
  revert st. induction ds as [|d ds IH]; intros st; simpl; [reflexivity|].
  destruct (sync d); simpl; f_equal; apply IH.
Qed.

Lemma sync_each_failures (sync : departure -> result unit) (S : Store) (st : db) (ds : list departure)
  (d : departure) :
  In d (filter (fun d => is_failure (sync d)) ds) ->
  exists m, sync d = Throw m
    /\ In (mkSyncResult (dep_id d) false (Some (error_message m))) (snd (sync_each sync S st ds)).
Proof.
  revert st. induction ds as [|d0 ds IH]; intros st Hin; simpl in Hin; [contradiction|].
  simpl. destruct (sync d0) as [u|m] eqn:E; simpl in Hin |- *.
  - destruct (IH (markDepartureSynced S st (dep_id d0)) Hin) as (m & Hm & Hr).
    exists m. split; [exact Hm|right; exact Hr].
  - destruct Hin as [<-|Hin].
    + exists m. split; [exact E|left; reflexivity].
    + destruct (IH st Hin) as (m' & Hm & Hr). exists m'. split; [exact Hm|right; exact Hr].
Qed.

Lemma length_filter_map_eq {A B : Type} (g : B -> bool) (f : A -> bool) (h : bool -> bool)
  (rs : list B) (ds : list A) :
  map g rs = map f ds ->
  length (filter (fun x => h (g x)) rs) = length (filter (fun x => h (f x)) ds).
Proof.
  revert ds. induction rs as [|r rs IH]; intros [|d ds] Heq; simpl in Heq;
    try discriminate; [reflexivity|].
  injection Heq as Hrd Hrest. simpl. rewrite Hrd.
  destruct (h (f d)); simpl; rewrite (IH ds Hrest); reflexivity.
Qed.

Lemma sync_each_drizzle_state (sync : departure -> result unit) (pg : DrizzleStorage.pg_checks)
  (st : db) (ds : list departure) :
  fst (sync_each sync (DrizzleStorage.store pg) st ds)
  = with_departures st (map (mark_ids (synced_ids sync ds)) (locationDepartures st)).
Proof.
  revert st. induction ds as [|d ds IH]; intros st; simpl.
  - unfold mark_ids, synced_ids; simpl. rewrite map_id. destruct st; reflexivity.
  - unfold synced_ids in *; simpl.
    destruct (sync d) as [u|m]; simpl; rewrite IH.
    + unfold DrizzleStorage.markDepartureSynced, with_departures; simpl.
      rewrite map_map. f_equal. apply map_ext. intros x.
      unfold mark_ids; simpl.
      destruct (String.eqb (dep_id x) (dep_id d)); simpl; [|reflexivity].
      destruct (existsb _ _); reflexivity.
    + unfold with_departures. reflexivity.
Qed.

Lemma filter_unsynced_mark_ids (ids : list string) (deps : list departure) :
  filter (fun d => negb (dep_synced d)) (map (mark_ids ids) deps)
  = filter (fun d => negb (dep_synced d) && negb (existsb (String.eqb (dep_id d)) ids)) deps.
Proof.
  induction deps as [|x deps IH]; simpl; [reflexivity|].
  assert (Hm : mark_ids ids x
              = if existsb (String.eqb (dep_id x)) ids then set_departure_synced x else x)
    by reflexivity.
  rewrite Hm. destruct (existsb (String.eqb (dep_id x)) ids); simpl.
  - rewrite andb_false_r. exact IH.
  - rewrite andb_true_r. destruct (negb (dep_synced x)); [f_equal|]; exact IH.
Qed.

Lemma filter_filter_andb {A : Type} (f g : A -> bool) (l : list A) :
  filter f (filter g l) = filter (fun x => g x && f x) l.
Proof.
  induction l as [|x l IH]; simpl; [reflexivity|].
  destruct (g x); simpl; [destruct (f x); simpl; [f_equal|]|]; exact IH.
Qed.

Lemma Permutation_filter_compat {A : Type} (f : A -> bool) (l l' : list A) :
  Permutation l l' -> Permutation (filter f l) (filter f l').
Proof.
  induction 1 as [|x l l' _ IH|x y l|l l' l'' _ IH1 _ IH2]; simpl.
  - constructor.
  - destruct (f x); [constructor|]; exact IH.
  - destruct (f x), (f y); try constructor; reflexivity.
  - eapply perm_trans; eassumption.
Qed.

Lemma NoDup_map_same_key {A : Type} (key : A -> string) (l : list A) (x y : A) :
  NoDup (map key l) -> In x l -> In y l -> key x = key y -> x = y.
Proof.
  induction l as [|z l IH]; simpl; [contradiction|].
  intros Hnd Hx Hy Hk. inversion Hnd as [|? ? Hnotin Hnd']; subst.
  destruct Hx as [<-|Hx], Hy as [<-|Hy]; try reflexivity.
  - exfalso. apply Hnotin. rewrite Hk. apply in_map. exact Hy.
  - exfalso. apply Hnotin. rewrite <- Hk. apply in_map. exact Hx.
  - exact (IH Hnd' Hx Hy Hk).
Qed.

(** C3. On [DrizzleStorage], bulk sync over the rows [uns] returned by
    [getUnsyncedDepartures] (in any order) attempts every row: the
    [results] list one entry per row, in order, successful exactly when the
    publication of that row resolves; the response is
    [{synced: N - K, failed: K}] for the [K] failed rows of the [N]; each
    failed row keeps its id and error message in [results]; and afterwards
    the rows with [synced = false] are exactly the failed ones. Ids are
    distinct (the primary key). *)
Theorem bulk_sync_counts_and_leaves_failures_unsynced
  (sync : departure -> result unit) (pg : DrizzleStorage.pg_checks)
  (st : db) (uns : list departure) :
  DrizzleStorage.unsynced_result st uns ->
  NoDup (map dep_id (locationDepartures st)) ->
  let out := bulk_sync sync (DrizzleStorage.store pg) st uns in
  let failed := filter (fun d => is_failure (sync d)) uns in
  map sr_id (snd out) = map dep_id uns
  /\ map sr_success (snd out) = map (fun d => negb (is_failure (sync d))) uns
  /\ synced_count (snd (fst out)) = (length uns - length failed)%nat
  /\ failed_count (snd (fst out)) = length failed
  /\ (forall d, In d failed -> exists m, sync d = Throw m
        /\ In (mkSyncResult (dep_id d) false (Some (error_message m))) (snd out))
  /\ Permutation (filter (fun d => negb (dep_synced d)) (locationDepartures (fst (fst out))))
                 failed.
Proof.
  intros Huns Hnd out failed.
  assert (Hsucc := sync_each_success sync (DrizzleStorage.store pg) st uns).
  assert (Hfail : failed_count (snd (fst out)) = length failed).
  { subst out failed. unfold bulk_sync; simpl.
    rewrite (length_filter_map_eq sr_success (fun d => negb (is_failure (sync d))) negb _ _ Hsucc).
    f_equal. apply filter_ext. intros d. apply negb_involutive. }
  split; [apply sync_each_ids|]. split; [exact Hsucc|].
  split; [|split; [exact Hfail|split]].
  - subst out failed. unfold bulk_sync; simpl.
    pose proof (length_filter_map_eq sr_success (fun d => negb (is_failure (sync d))) (fun b => b)
                  _ _ Hsucc) as Hs.
    cbv beta in Hs.
    change (filter sr_success ?l) with (filter (fun x => sr_success x) l).
    rewrite Hs.
    pose proof (filter_length (fun d => negb (is_failure (sync d))) uns) as Hl.
    rewrite (filter_ext (fun x => negb (negb (is_failure (sync x))))
               (fun d => is_failure (sync d)) (fun d => negb_involutive _)) in Hl.
    lia.
  - intros d Hd. apply sync_each_failures. exact Hd.
  - subst out failed. unfold bulk_sync; simpl.
    rewrite sync_each_drizzle_state. simpl. rewrite filter_unsynced_mark_ids.
    set (deps := locationDepartures st) in *.
    rewrite (filter_ext_in _
               (fun d => negb (dep_synced d) && is_failure (sync d)) deps).
    + rewrite <- filter_filter_andb.
      apply Permutation_filter_compat. symmetry. exact Huns.
    + intros x Hx.
      destruct (dep_synced x) eqn:Es; simpl; [reflexivity|].
      assert (Hxu : In x uns).
      { apply (Permutation_in _ (Permutation_sym Huns)). apply filter_In.
        split; [exact Hx|]. rewrite Es. reflexivity. }
      destruct (sync x) as [u|m] eqn:Ex; simpl.
      * apply negb_false_iff. apply existsb_exists. exists (dep_id x).
        split; [|apply String.eqb_refl].
        unfold synced_ids. apply in_map. apply filter_In. rewrite Ex. split; [exact Hxu|reflexivity].
      * apply negb_true_iff.
        destruct (existsb (String.eqb (dep_id x)) (synced_ids sync uns)) eqn:E; [|reflexivity].
        exfalso. apply existsb_exists in E. destruct E as (i & Hi & Heq).
        apply String.eqb_eq in Heq. subst i.
        unfold synced_ids in Hi. apply in_map_iff in Hi. destruct Hi as (z & Hz & Hzin).
        apply filter_In in Hzin. destruct Hzin as [Hzu Hok].
        assert (Hzd : In z deps).
        { apply (Permutation_in _ Huns) in Hzu. apply filter_In in Hzu. tauto. }
        assert (z = x) by (apply (NoDup_map_same_key dep_id deps); assumption).
        subst z. rewrite Ex in Hok. discriminate.
Qed.

Lemma bulk_sync_counts_and_leaves_failures_unsynced_witness :
  Permutation
    (filter (fun d => negb (dep_synced d))
       (locationDepartures (fst (fst (bulk_sync (fun d => if String.eqb (dep_id d) "d1"
                                                           then Throw None else Ok tt)
                                          (DrizzleStorage.store accept_all) st_two_unsynced
                                          [sample_departure "d2" 2000;
                                           sample_departure "d1" 1000])))))
    [sample_departure "d1" 1000].
Proof.
  destruct (bulk_sync_counts_and_leaves_failures_unsynced
              (fun d => if String.eqb (dep_id d) "d1" then Throw None else Ok tt)
              accept_all st_two_unsynced
              [sample_departure "d2" 2000; sample_departure "d1" 1000])
    as (_ & _ & _ & _ & _ & Hp).
  - unfold DrizzleStorage.unsynced_result. simpl. apply perm_swap.
  - simpl. repeat constructor; simpl; intuition discriminate.
  - exact Hp.
Defined.

(** *** The [synced] flag *)

Lemma find_map_set_other {A : Type} (key : A -> string) (v : A) (l : list A) (k : string) :
  key v <> k ->
  find (fun x => String.eqb (key x) k) (map_set key v l) = find (fun x => String.eqb (key x) k) l.
Proof.
  intros Hne. apply String.eqb_neq in Hne.
  induction l as [|x l IH]; simpl.
  - rewrite Hne. reflexivity.
  - destruct (String.eqb (key x) (key v)) eqn:E; simpl.
    + apply String.eqb_eq in E. rewrite E, Hne. reflexivity.
    + destruct (String.eqb (key x) k); [reflexivity|exact IH].
Qed.

Lemma map_set_found {A : Type} (key : A -> string) (v : A) (l : list A) :
  find (fun x => String.eqb (key x) (key v)) l = Some v -> map_set key v l = l.
Proof.
  induction l as [|x l IH]; simpl; [discriminate|].
  destruct (String.eqb (key x) (key v)).
  - intros H. injection H as ->. reflexivity.
  - intros H. f_equal. exact (IH H).
Qed.

Lemma find_app_some {A : Type} (f : A -> bool) (l l' : list A) (y : A) :
  find f l = Some y -> find f (l ++ l') = Some y.
Proof.
  induction l as [|x l IH]; simpl; [discriminate|].
  destruct (f x); [tauto|exact IH].
Qed.

Lemma existsb_false_find {A : Type} (f : A -> bool) (l : list A) :
  existsb f l = false -> find f l = None.
Proof.
  induction l as [|x l IH]; simpl; [reflexivity|].
  destruct (f x); simpl; [discriminate|exact IH].
Qed.

Lemma find_map_same_test {A : Type} (f : A -> bool) (g : A -> A) (l : list A) :
  (forall x, f (g x) = f x) -> find f (map g l) = option_map g (find f l).
Proof.
  intros Hg. induction l as [|x l IH]; simpl; [reflexivity|].
  rewrite Hg. destruct (f x); [reflexivity|exact IH].
Qed.

Lemma set_departure_synced_id (d : departure) : dep_id (set_departure_synced d) = dep_id d.
Proof. reflexivity. Qed.

Lemma set_departure_synced_already (d : departure) :
  dep_synced d = true -> set_departure_synced d = d.
Proof. destruct d; simpl; intros ->; reflexivity. Qed.

Lemma creates_fresh_cons (S : Store) (st : db) (op : storage_op) (ops : list storage_op) :
  creates_fresh S st (op :: ops) = op_fresh st op && creates_fresh S (run_op S st op) ops.
Proof. destruct op; reflexivity. Qed.

Lemma run_op_other_departures (S : Store) (pg : DrizzleStorage.pg_checks) (st : db)
  (op : storage_op) :
  S = MemStorage.store \/ S = DrizzleStorage.store pg ->
  (forall ins id now, op <> OpCreateDeparture ins id now) ->
  (forall id, op <> OpMarkDepartureSynced id) ->
  locationDepartures (run_op S st op) = locationDepartures st.
Proof.
  intros HS Hc Hm.
  destruct op as [ins id now|id|ins id now|ins id|id u];
    [exfalso; exact (Hc ins id now eq_refl)|exfalso; exact (Hm id eq_refl)| | |];
    destruct HS as [->| ->]; simpl.
  - reflexivity.
  - unfold DrizzleStorage.createBreadcrumb. destruct_ifs; reflexivity.
  - reflexivity.
  - unfold DrizzleStorage.createTimeEntry. destruct_ifs; reflexivity.
  - unfold MemStorage.updateTimeEntry. destruct (MemStorage.getTimeEntry st id); reflexivity.
  - unfold DrizzleStorage.updateTimeEntry. destruct_ifs; reflexivity.
Qed.

Lemma synced_step (S : Store) (pg : DrizzleStorage.pg_checks) (st : db) (op : storage_op)
  (id : string) :
  S = MemStorage.store \/ S = DrizzleStorage.store pg ->
  op_fresh st op = true ->
  synced_of st id = Some true ->
  synced_of (run_op S st op) id = Some true.
Proof.
  intros HS Hf Hs.
  destruct op as [ins id0 now|id0| | |].
  3-5: unfold synced_of; rewrite (run_op_other_departures S pg); try assumption;
       intros; discriminate.
  - unfold synced_of in *.
    destruct (find (fun d => String.eqb (dep_id d) id) (locationDepartures st)) as [e|] eqn:Hfind;
      [|discriminate].
    destruct HS as [->| ->]; simpl.
    + simpl in Hf. rewrite find_map_set_other; [rewrite Hfind; exact Hs|].
      simpl. intros <-. apply find_some in Hfind.
      apply negb_true_iff in Hf. destruct Hfind as [Hin Heq].
      assert (Ht : existsb (fun d => String.eqb (dep_id d) (dep_id e)) (locationDepartures st) = true)
        by (apply existsb_exists; exists e; split; [exact Hin|apply String.eqb_refl]).
      apply String.eqb_eq in Heq. rewrite Heq in Ht. simpl in Hf. congruence.
    + unfold DrizzleStorage.createDeparture. destruct_ifs; simpl;
        [rewrite Hfind; exact Hs..|].
      rewrite (find_app_some _ _ _ _ Hfind). exact Hs.
  - unfold synced_of in *.
    destruct (find (fun d => String.eqb (dep_id d) id) (locationDepartures st)) as [e|] eqn:Hfind;
      [|discriminate].
    destruct HS as [->| ->]; simpl.
    + unfold MemStorage.markDepartureSynced.
      destruct (find (fun d => String.eqb (dep_id d) id0) (locationDepartures st)) as [d0|] eqn:H0;
        simpl; [|rewrite Hfind; exact Hs].
      assert (Hd0 : dep_id (set_departure_synced d0) = id0).
      { apply find_some in H0. apply String.eqb_eq. rewrite set_departure_synced_id. tauto. }
      destruct (String.eqb_spec id0 id) as [<-|Hne].
      * rewrite <- Hd0. rewrite find_map_set_key. reflexivity.
      * rewrite find_map_set_other by congruence. rewrite Hfind. exact Hs.
    + unfold DrizzleStorage.markDepartureSynced; simpl.
      rewrite find_map_same_test.
      * rewrite Hfind. simpl. destruct (String.eqb (dep_id e) id0); [reflexivity|exact Hs].
      * intros x. destruct (String.eqb (dep_id x) id0); reflexivity.
Qed.

Lemma find_map_set_key_eq {A : Type} (key : A -> string) (v : A) (l : list A) (k : string) :
  key v = k -> find (fun x => String.eqb (key x) k) (map_set key v l) = Some v.
Proof. intros <-. apply find_map_set_key. Qed.

(** C4. For both stores: along any sequence of storage operations (each
    created departure getting a new id), a departure whose [synced] flag is
    [true] keeps it [true]; marking a departure that is already synced
    leaves the state unchanged (ids being distinct, as the primary key
    ensures); and a newly created departure has [synced = false]. *)
Theorem departure_synced_flag_monotone (pg : DrizzleStorage.pg_checks) (S : Store) :
  S = MemStorage.store \/ S = DrizzleStorage.store pg ->
  (forall st ops id, creates_fresh S st ops = true -> synced_of st id = Some true ->
     synced_of (run_ops S st ops) id = Some true)
  /\ (forall st id, synced_of st id = Some true ->
        NoDup (map dep_id (locationDepartures st)) ->
        markDepartureSynced S st id = st)
  /\ (forall st ins id now st' d, createDeparture S st ins id now = Ok (st', d) ->
        dep_synced d = false /\ dep_id d = id /\ synced_of st' id = Some false).
Proof.
  intros HS. split; [|split].
  - intros st ops. revert st. unfold run_ops.
    induction ops as [|op ops IH]; intros st id Hf Hs; simpl; [exact Hs|].
    rewrite creates_fresh_cons in Hf. apply andb_prop in Hf. destruct Hf as [Hop Hrest].
    apply IH; [exact Hrest|]. apply (synced_step S pg); assumption.
  - intros st id Hs Hnd. unfold synced_of in Hs.
    destruct (find (fun d => String.eqb (dep_id d) id) (locationDepartures st)) as [e|] eqn:Hfind;
      [|discriminate].
    injection Hs as He.
    assert (Hin := find_some _ _ Hfind). destruct Hin as [Hin Hid].
    apply String.eqb_eq in Hid.
    destruct HS as [->| ->]; simpl.
    + unfold MemStorage.markDepartureSynced. rewrite Hfind.
      rewrite set_departure_synced_already by exact He.
      rewrite map_set_found; [destruct st; reflexivity|].
      rewrite Hid. exact Hfind.
    + unfold DrizzleStorage.markDepartureSynced.
      rewrite (map_ext_in _ (fun d => d)).
      * rewrite map_id. destruct st; reflexivity.
      * intros x Hx. destruct (String.eqb (dep_id x) id) eqn:Ex; [|reflexivity].
        apply String.eqb_eq in Ex.
        assert (x = e) as ->.
        { apply (NoDup_map_same_key dep_id (locationDepartures st)); try assumption.
          congruence. }
        apply set_departure_synced_already. exact He.
  - intros st ins id now st' d Hc.
    destruct HS as [->| ->]; simpl in Hc.
    + injection Hc as <- <-. split; [reflexivity|split; [reflexivity|]].
      unfold synced_of; simpl. rewrite find_map_set_key_eq by reflexivity. reflexivity.
    + unfold DrizzleStorage.createDeparture in Hc.
      destruct (negb (DrizzleStorage.has_time_entry st (idp_timeEntryId ins))); [discriminate|].
      destruct (negb (DrizzleStorage.pg_distance_ok pg (idp_distance ins))); [discriminate|].
      destruct (existsb (fun d => String.eqb (dep_id d) id) (locationDepartures st)) eqn:Ex;
        [discriminate|].
      injection Hc as <- <-. split; [reflexivity|split; [reflexivity|]].
      unfold synced_of; simpl.
      rewrite find_app_single; [reflexivity|apply existsb_false_find; exact Ex|].
      apply String.eqb_refl.
Qed.

Lemma departure_synced_flag_monotone_witness :
  synced_of
    (run_ops (DrizzleStorage.store accept_all)
       (DrizzleStorage.markDepartureSynced st_two_unsynced "d1")
       [OpCreateDeparture (mkInsertDeparture "s1" (mkLocation 0 0 "A") (mkLocation 1 0 "B") None)
          "d3" 5000;
        OpMarkDepartureSynced "d2"])
    "d1" = Some true.
Proof.
  destruct (departure_synced_flag_monotone accept_all (DrizzleStorage.store accept_all)
              (or_intror eq_refl)) as [Hmono _].
  apply Hmono; reflexivity.
Defined.

(** *** Unsynced departures *)

Lemma StronglySorted_filter {A : Type} (R : A -> A -> Prop) (f : A -> bool) (l : list A) :
  StronglySorted R l -> StronglySorted R (filter f l).
Proof.
  induction 1 as [|x l _ IH Hall]; simpl; [constructor|].
  destruct (f x); [|exact IH].
  constructor; [exact IH|].
  apply Forall_forall. intros y Hy. apply filter_In in Hy.
  rewrite Forall_forall in Hall. apply Hall. tauto.
Qed.

(** C9 (counterexample). [getUnsyncedDepartures] of [DrizzleStorage] has no
    [orderBy]: on a store holding departure ["d1"] (timestamp 1000) and
    ["d2"] (timestamp 2000), both unsynced, the result [d2; d1] is allowed
    by SQL, and it is not oldest first. *)
Lemma unsynced_departures_order_unconstrained :
  exists r, DrizzleStorage.unsynced_result st_two_unsynced r
    /\ ~ Sorted (fun a b => dep_timestamp a <= dep_timestamp b) r.
Proof.
  exists [sample_departure "d2" 2000; sample_departure "d1" 1000]. split.
  - unfold DrizzleStorage.unsynced_result. simpl. apply perm_swap.
  - intros Hs. inversion Hs as [|? ? _ Hhd]. subst.
    inversion Hhd as [|? ? Hle]. simpl in Hle. lia.
Qed.

(** C9 (amended). The unsynced listing holds exactly the departures with
    [synced = false]. [MemStorage] lists them in the order of the store
    (creation order), hence oldest first when the store is ordered by
    timestamp; every result the query of [DrizzleStorage] may return holds
    exactly those departures, in an order it does not fix. *)
Theorem unsynced_listing_exact_members (st : db) :
  (forall d, In d (MemStorage.getUnsyncedDepartures st)
             <-> In d (locationDepartures st) /\ dep_synced d = false)
  /\ (Sorted (fun a b => dep_timestamp a <= dep_timestamp b) (locationDepartures st) ->
      Sorted (fun a b => dep_timestamp a <= dep_timestamp b) (MemStorage.getUnsyncedDepartures st))
  /\ DrizzleStorage.unsynced_result st (DrizzleStorage.getUnsyncedDepartures st)
  /\ (forall r, DrizzleStorage.unsynced_result st r ->
        forall d, In d r <-> In d (locationDepartures st) /\ dep_synced d = false).
Proof.
  assert (Hmem : forall d, In d (filter (fun d => negb (dep_synced d)) (locationDepartures st))
                  <-> In d (locationDepartures st) /\ dep_synced d = false).
  { intros d. rewrite filter_In, negb_true_iff. tauto. }
  split; [exact Hmem|]. split; [|split].
  - intros Hs. unfold MemStorage.getUnsyncedDepartures.
    apply StronglySorted_Sorted. apply StronglySorted_filter.
    apply Sorted_StronglySorted; [|exact Hs].
    intros a b c Hab Hbc. lia.
  - unfold DrizzleStorage.unsynced_result, DrizzleStorage.getUnsyncedDepartures. reflexivity.
  - intros r Hr d. rewrite <- Hmem. split; intros Hin.
    + exact (Permutation_in _ Hr Hin).
    + exact (Permutation_in _ (Permutation_sym Hr) Hin).
Qed.

Lemma unsynced_listing_exact_members_witness :
  Sorted (fun a b => dep_timestamp a <= dep_timestamp b)
    (MemStorage.getUnsyncedDepartures st_two_unsynced).
Proof.
  destruct (unsynced_listing_exact_members st_two_unsynced) as (_ & Hs & _).
  apply Hs. repeat constructor; simpl; lia.
Defined.

(** ** Further properties of the storage and the routes *)

(** *** Listings *)

Lemma Sorted_weaken {A : Type} (R R' : A -> A -> Prop) (l : list A) :
  (forall a b, R a b -> R' a b) -> Sorted R l -> Sorted R' l.
Proof.
  intros HRR. induction 1 as [|x l _ IH Hhd]; constructor; [exact IH|].
  destruct Hhd; constructor. apply HRR. assumption.
Qed.

Lemma StronglySorted_app_rel {A : Type} (R : A -> A -> Prop) (l1 l2 : list A) (x y : A) :
  StronglySorted R (l1 ++ l2) -> In x l1 -> In y l2 -> R x y.
Proof.
  induction l1 as [|z l1 IH]; simpl; [contradiction|].
  intros Hs Hx Hy. inversion Hs as [|? ? Hs' Hall]; subst.
  destruct Hx as [<-|Hx].
  - rewrite Forall_forall in Hall. apply Hall. apply in_or_app. right. exact Hy.
  - exact (IH Hs' Hx Hy).
Qed.

Lemma sort_by_desc_sorted {A : Type} (k : A -> Z) (l : list A) :
  Sorted (fun a b => k b <= k a) (sort_by (fun x => - k x) l).
Proof.
  apply (Sorted_weaken (fun a b => - k a <= - k b)); [intros; lia|].
  apply (sort_by_sorted (fun x => - k x)).
Qed.

Lemma sort_by_asc_sorted {A : Type} (k : A -> Z) (l : list A) :
  Sorted (fun a b => k a <= k b) (sort_by k l).
Proof. apply (sort_by_sorted k). Qed.

Lemma in_sort_by_filter {A : Type} (k : A -> Z) (f : A -> bool) (l : list A) (x : A) :
  In x (sort_by k (filter f l)) <-> In x l /\ f x = true.
Proof.
  split; intros H.
  - apply filter_In. exact (Permutation_in _ (sort_by_perm k _) H).
  - apply (Permutation_in _ (Permutation_sym (sort_by_perm k _))). apply filter_In. exact H.
Qed.

(** The time entries of a worker in [MemStorage], without a limit: exactly
    the worker's entries, most recent clock-in first; a limit of 0 (falsy)
    also returns them all, and a positive limit [n] returns the first [n]. *)
Theorem mem_time_entries_by_employee_listing (st : db) (employeeId : string) :
  let all := MemStorage.getTimeEntriesByEmployee st employeeId None in
  (forall e, In e all <-> In e (timeEntries st) /\ te_employeeId e = employeeId)
  /\ Sorted (fun a b => te_clockInTime b <= te_clockInTime a) all
  /\ MemStorage.getTimeEntriesByEmployee st employeeId (Some 0) = all
  /\ (forall n, 0 < n ->
        MemStorage.getTimeEntriesByEmployee st employeeId (Some n) = firstn (Z.to_nat n) all).
Proof.
  intros all. split; [|split; [|split]].
  - intros e. subst all. unfold MemStorage.getTimeEntriesByEmployee.
    rewrite in_sort_by_filter, String.eqb_eq. reflexivity.
  - apply sort_by_desc_sorted.
  - reflexivity.
  - intros n Hn. unfold MemStorage.getTimeEntriesByEmployee, slice0.
    replace (Z.eqb n 0) with false by lia. replace (0 <=? n) with true by lia. reflexivity.
Qed.

Lemma mem_time_entries_by_employee_listing_witness :
  MemStorage.getTimeEntriesByEmployee st_long_session "e1" (Some 5)
  = firstn 5 (MemStorage.getTimeEntriesByEmployee st_long_session "e1" None).
Proof.
  destruct (mem_time_entries_by_employee_listing st_long_session "e1") as (_ & _ & _ & H).
  apply (H 5). lia.
Defined.

Lemma StronglySorted_app_l {A : Type} (R : A -> A -> Prop) (l1 l2 : list A) :
  StronglySorted R (l1 ++ l2) -> StronglySorted R l1.
Proof.
  induction l1 as [|x l1 IH]; simpl; intros Hs; [constructor|].
  inversion Hs as [|? ? Hs' Hall]; subst.
  constructor; [exact (IH Hs')|].
  rewrite Forall_forall in Hall |- *. intros y Hy. apply Hall. apply in_or_app. left. exact Hy.
Qed.

(** A prefix of the worker's entries sorted by non-increasing clock-in time
    keeps that order, and no entry after the prefix was clocked in later
    than one inside it. *)
Lemma newest_prefix (l : list time_entry) (k : nat) :
  let s := sort_by (fun e => - te_clockInTime e) l in
  Sorted (fun a b => te_clockInTime b <= te_clockInTime a) (firstn k s)
  /\ (forall e e', In e (firstn k s) -> In e' (skipn k s) -> te_clockInTime e' <= te_clockInTime e).
Proof.
  intros s.
  assert (Hs : StronglySorted (fun a b => te_clockInTime b <= te_clockInTime a) s).
  { apply Sorted_StronglySorted; [intros a b c; lia|]. apply sort_by_desc_sorted. }
  rewrite <- (firstn_skipn k s) in Hs.
  split.
  - apply StronglySorted_Sorted. exact (StronglySorted_app_l _ _ _ Hs).
  - intros e e' He He'. exact (StronglySorted_app_rel _ _ _ _ _ Hs He He').
Qed.

(** A negative limit [n] in [MemStorage] is passed to [slice(0, n)]: the
    listing is not refused or capped but loses its last [|n|] entries (all
    of them when there are fewer), and each entry it loses was clocked in
    no later than each entry it keeps: the oldest ones are dropped. *)
Theorem mem_time_entries_negative_limit_drops_oldest (st : db) (employeeId : string) (n : Z) :
  n < 0 ->
  let all := MemStorage.getTimeEntriesByEmployee st employeeId None in
  let r := MemStorage.getTimeEntriesByEmployee st employeeId (Some n) in
  exists dropped, all = (r ++ dropped)%list
    /\ length dropped = Nat.min (Z.to_nat (- n)) (length all)
    /\ (forall e e', In e r -> In e' dropped -> te_clockInTime e' <= te_clockInTime e).
Proof.
  intros Hn all r.
  assert (Hr : r = firstn (Z.to_nat (Z.of_nat (length all) + n)) all).
  { subst r all. unfold MemStorage.getTimeEntriesByEmployee, slice0.
    replace (Z.eqb n 0) with false by lia. replace (0 <=? n) with false by lia.
    reflexivity. }
  exists (skipn (Z.to_nat (Z.of_nat (length all) + n)) all).
  split; [|split].
  - rewrite Hr. symmetry. apply firstn_skipn.
  - rewrite length_skipn. lia.
  - rewrite Hr. apply newest_prefix.
Qed.

Lemma mem_time_entries_negative_limit_drops_oldest_witness :
  exists dropped,
    MemStorage.getTimeEntriesByEmployee
      (mkDb ["e1"] [closed_entry "s1" "e1" 0 10; closed_entry "s2" "e1" 20 30] [] []) "e1" None
    = (MemStorage.getTimeEntriesByEmployee
         (mkDb ["e1"] [closed_entry "s1" "e1" 0 10; closed_entry "s2" "e1" 20 30] [] [])
         "e1" (Some (-1)) ++ dropped)%list
    /\ length dropped = 1%nat.
Proof.
  destruct (mem_time_entries_negative_limit_drops_oldest
              (mkDb ["e1"] [closed_entry "s1" "e1" 0 10; closed_entry "s2" "e1" 20 30] [] [])
              "e1" (-1) ltac:(lia)) as (dropped & Ha & Hl & _).
  exists dropped. split; [exact Ha|]. rewrite Hl. reflexivity.
Defined.



(** The departures listing of a session holds exactly that session's
    departures in both stores; [MemStorage] lists them oldest first and
    [DrizzleStorage] newest first. *)
Theorem departures_listing_members_and_order (st : db) (timeEntryId : string) :
  (forall d, In d (MemStorage.getDeparturesByTimeEntry st timeEntryId)
             <-> In d (locationDepartures st) /\ dep_timeEntryId d = timeEntryId)
  /\ (forall d, In d (DrizzleStorage.getDeparturesByTimeEntry st timeEntryId)
             <-> In d (locationDepartures st) /\ dep_timeEntryId d = timeEntryId)
  /\ Sorted (fun a b => dep_timestamp a <= dep_timestamp b)
       (MemStorage.getDeparturesByTimeEntry st timeEntryId)
  /\ Sorted (fun a b => dep_timestamp b <= dep_timestamp a)
       (DrizzleStorage.getDeparturesByTimeEntry st timeEntryId).
Proof.
  split; [|split; [|split]].
  - intros d. unfold MemStorage.getDeparturesByTimeEntry.
    rewrite in_sort_by_filter, String.eqb_eq. reflexivity.
  - intros d. unfold DrizzleStorage.getDeparturesByTimeEntry.
    rewrite in_sort_by_filter, String.eqb_eq. reflexivity.
  - apply sort_by_asc_sorted.
  - apply sort_by_desc_sorted.
Qed.

(** *** Departure detection on [MemStorage] *)

Lemma map_set_fresh {A : Type} (key : A -> string) (v : A) (l : list A) :
  existsb (fun x => String.eqb (key x) (key v)) l = false -> map_set key v l = (l ++ [v])%list.
Proof.
  induction l as [|x l IH]; simpl; [reflexivity|].
  destruct (String.eqb (key x) (key v)); simpl; [discriminate|].
  intros H. f_equal. exact (IH H).
Qed.

Lemma insert_by_app_last {A : Type} (k : A -> Z) (x b : A) (s : list A) :
  k x <= k b -> insert_by k x (s ++ [b]) = (insert_by k x s ++ [b])%list.
Proof.
  intros Hle. induction s as [|y s IH]; simpl.
  - replace (k x <=? k b) with true by lia. reflexivity.
  - destruct (k x <=? k y); [reflexivity|]. rewrite IH. reflexivity.
Qed.

Lemma sort_by_app_last {A : Type} (k : A -> Z) (b : A) (l : list A) :
  (forall x, In x l -> k x <= k b) -> sort_by k (l ++ [b]) = (sort_by k l ++ [b])%list.
Proof.
  induction l as [|x l IH]; intros Hle; simpl; [reflexivity|].
  rewrite IH by (intros y Hy; apply Hle; right; exact Hy).
  apply insert_by_app_last. apply Hle. left. reflexivity.
Qed.

Lemma previous_breadcrumb_app_last (s : list breadcrumb) (b : breadcrumb) :
  s <> [] -> exists s' p, s = (s' ++ [p])%list /\ previous_breadcrumb (s ++ [b]) = Some p.
Proof.
  intros Hne. destruct (exists_last Hne) as (s' & p & ->).
  exists s', p. split; [reflexivity|].
  unfold previous_breadcrumb. rewrite <- app_assoc. simpl.
  rewrite length_app. simpl.
  replace (1 <? length s' + 2)%nat with true by (symmetry; apply Nat.ltb_lt; lia).
  replace (length s' + 2 - 2)%nat with (length s' + 0)%nat by lia.
  rewrite nth_error_app2 by lia. replace (length s' + 0 - length s')%nat with 0%nat by lia.
  reflexivity.
Qed.

(** On [MemStorage], when a breadcrumb with a new id is appended to a
    session that already has breadcrumbs, none captured after the new one,
    the detector compares the new breadcrumb with a breadcrumb of the same
    session having the latest capture time among the earlier ones. *)
Theorem mem_detector_uses_latest_breadcrumb
  (st : db) (sid : string) (body : breadcrumb_body) (ins : insert_breadcrumb)
  (bcId : string) (now : Z) :
  parse_breadcrumb sid body = Some ins ->
  existsb (fun b => String.eqb (bc_id b) bcId) (locationBreadcrumbs st) = false ->
  (forall b, In b (locationBreadcrumbs st) -> bc_timeEntryId b = sid -> bc_timestamp b <= now) ->
  (exists b, In b (locationBreadcrumbs st) /\ bc_timeEntryId b = sid) ->
  exists prev cur,
    detection_pair MemStorage.store st sid body bcId now = Some (prev, cur)
    /\ bc_id cur = bcId /\ bc_timestamp cur = now
    /\ In prev (locationBreadcrumbs st) /\ bc_timeEntryId prev = sid
    /\ (forall b, In b (locationBreadcrumbs st) -> bc_timeEntryId b = sid ->
          bc_timestamp b <= bc_timestamp prev).
Proof.
  intros Hparse Hfresh Hbefore [b0 [Hb0 Hs0]].
  assert (Hsid := parse_breadcrumb_session _ _ _ Hparse).
  unfold detection_pair. rewrite Hparse. simpl.
  set (b := {| bc_id := bcId; bc_timeEntryId := ib_timeEntryId ins; bc_timestamp := now;
               bc_latitude := ib_latitude ins; bc_longitude := ib_longitude ins;
               bc_accuracy := ib_accuracy ins; bc_address := ib_address ins |}).
  unfold MemStorage.getBreadcrumbsByTimeEntry; simpl.
  rewrite (map_set_fresh bc_id b) by exact Hfresh.
  rewrite filter_app. simpl. rewrite Hsid, String.eqb_refl.
  set (mine := filter (fun x => String.eqb (bc_timeEntryId x) sid) (locationBreadcrumbs st)).
  assert (Hmine : forall x, In x mine <-> In x (locationBreadcrumbs st) /\ bc_timeEntryId x = sid).
  { intros x. unfold mine. rewrite filter_In, String.eqb_eq. reflexivity. }
  rewrite sort_by_app_last.
  2: { intros x Hx. apply Hmine in Hx. subst b. simpl. apply Hbefore; tauto. }
  set (s := sort_by bc_timestamp mine).
  assert (Hp : Permutation s mine) by apply sort_by_perm.
  assert (Hne : s <> []).
  { intros E. assert (Hin : In b0 s).
    { apply (Permutation_in _ (Permutation_sym Hp)). apply Hmine. tauto. }
    rewrite E in Hin. contradiction. }
  destruct (previous_breadcrumb_app_last s b Hne) as (s' & p & Hs & ->).
  assert (Hpin : In p mine).
  { apply (Permutation_in _ Hp). rewrite Hs. apply in_or_app. right. left. reflexivity. }
  apply Hmine in Hpin. destruct Hpin as [Hpin Hpsid].
  exists p, b. split; [reflexivity|]. split; [reflexivity|]. split; [reflexivity|].
  split; [exact Hpin|]. split; [exact Hpsid|].
  intros x Hx Hxs.
  assert (Hxs' : In x s) by (apply (Permutation_in _ (Permutation_sym Hp)); apply Hmine; tauto).
  assert (Hsorted : StronglySorted (fun a c => bc_timestamp a <= bc_timestamp c) s).
  { apply Sorted_StronglySorted; [intros ? ? ?; lia|]. apply sort_by_asc_sorted. }
  rewrite Hs in Hsorted, Hxs'. apply in_app_or in Hxs'. destruct Hxs' as [Hx'|[<-|[]]].
  - exact (StronglySorted_app_rel _ _ _ _ _ Hsorted Hx' (or_introl eq_refl)).
  - lia.
Qed.

Lemma mem_detector_uses_latest_breadcrumb_witness :
  exists prev cur,
    detection_pair MemStorage.store st_three_crumbs "s1" (body_at "40.0200" "-75.0000") "b4" 4000
    = Some (prev, cur)
    /\ bc_id prev = "b3".
Proof.
  destruct (mem_detector_uses_latest_breadcrumb st_three_crumbs "s1" (body_at "40.0200" "-75.0000")
              (mkInsertBreadcrumb "s1" "40.0200" "-75.0000" None None) "b4" 4000)
    as (prev & cur & Hd & _ & _ & Hin & _ & Hmax).
  - reflexivity.
  - reflexivity.
  - intros b Hb _. simpl in Hb. intuition (subst; simpl; lia).
  - exists (crumb "b1" "s1" 1000 "40.0000" "-75.0000"). split; [left; reflexivity|reflexivity].
  - exists prev, cur. split; [exact Hd|].
    simpl in Hin. destruct Hin as [<-|[<-|[<-|[]]]]; [| |reflexivity];
      exfalso; specialize (Hmax (crumb "b3" "s1" 3000 "40.0100" "-75.0000")
                             (or_intror (or_intror (or_introl eq_refl))) eq_refl);
      simpl in Hmax; lia.
Defined.

(** *** Departure creation inside the breadcrumb route *)

Lemma distance_m_unit : distance_m 0 0 1 0 = 111000%R.
Proof.
  unfold distance_m.
  replace ((1 - 0) ^ 2 + (0 - 0) ^ 2)%R with 1%R by ring.
  rewrite sqrt_1. ring.
Qed.

(** On [DrizzleStorage], when the route detects a departure whose distance
    Postgres refuses (the [distance] column is [numeric(8, 2)]), the
    response is 500 with no departure, yet the new breadcrumb has already
    been stored. *)
Theorem drizzle_append_distance_refused_keeps_breadcrumb
  (parseFloat : string -> R) (numberToString : R -> string)
  (syncToGoogleSheets : departure -> result unit) (pg : DrizzleStorage.pg_checks)
  (st : db) (sid : string) (body : breadcrumb_body) (ins : insert_breadcrumb)
  (bcId depId : string) (now : Z) (st1 : db) (bc prev : breadcrumb) :
  parse_breadcrumb sid body = Some ins ->
  DrizzleStorage.createBreadcrumb pg st ins bcId now = Ok (st1, bc) ->
  previous_breadcrumb (DrizzleStorage.getBreadcrumbsByTimeEntry st1 sid) = Some prev ->
  (100 < breadcrumb_distance parseFloat prev bc)%R ->
  DrizzleStorage.pg_distance_ok pg
    (Some (numberToString (breadcrumb_distance parseFloat prev bc))) = false ->
  let o := append_breadcrumb parseFloat numberToString syncToGoogleSheets
             (DrizzleStorage.store pg) st sid body bcId depId now in
  ao_status o = 500 /\ ao_departure o = None /\ ao_db o = st1
  /\ In bc (locationBreadcrumbs (ao_db o)).
Proof.
  intros Hparse Hc Hprev Hdist Hpg o.
  assert (Hin : In bc (locationBreadcrumbs st1)).
  { unfold DrizzleStorage.createBreadcrumb in Hc.
    destruct (negb _); [discriminate|]. destruct (negb _); [discriminate|].
    destruct (existsb _ _); [discriminate|].
    injection Hc as <- <-. simpl. apply in_or_app. right. left. reflexivity. }
  assert (Ho : o = mkAppendOutcome st1 500 None None).
  { subst o. unfold append_breadcrumb. rewrite Hparse. simpl. rewrite Hc, Hprev.
    destruct (Rlt_dec 100 (breadcrumb_distance parseFloat prev bc)) as [_|Hn]; [|contradiction].
    unfold DrizzleStorage.createDeparture. simpl.
    destruct (negb (DrizzleStorage.has_time_entry st1 sid)); [reflexivity|].
    rewrite Hpg. reflexivity. }
  rewrite Ho. simpl. repeat split; exact Hin.
Qed.

Lemma drizzle_append_distance_refused_keeps_breadcrumb_witness :
  ao_status (append_breadcrumb (fun s => if String.eqb s "50.0000" then 1%R else 0%R)
               (fun _ => "111000") (fun _ => Ok tt)
               (DrizzleStorage.store (DrizzleStorage.mkPgChecks (fun _ => true) (fun _ => false)))
               st_three_crumbs "s1" (body_at "50.0000" "-75.0000") "b4" "d1" 4000) = 500.
Proof.
  edestruct (drizzle_append_distance_refused_keeps_breadcrumb
               (fun s => if String.eqb s "50.0000" then 1%R else 0%R)
               (fun _ => "111000") (fun _ => Ok tt)
               (DrizzleStorage.mkPgChecks (fun _ => true) (fun _ => false))
               st_three_crumbs "s1" (body_at "50.0000" "-75.0000")
               (mkInsertBreadcrumb "s1" "50.0000" "-75.0000" None None) "b4" "d1" 4000)
    as [Hs _].
  - reflexivity.
  - reflexivity.
  - reflexivity.
  - unfold breadcrumb_distance. cbn -[distance_m]. rewrite distance_m_unit. lra.
  - reflexivity.
  - exact Hs.
Defined.

Lemma createDeparture_synced_false (pg : DrizzleStorage.pg_checks) (S : Store) (st : db)
  (ins : insert_departure) (id : string) (now : Z) (st' : db) (d : departure) :
  S = MemStorage.store \/ S = DrizzleStorage.store pg ->
  createDeparture S st ins id now = Ok (st', d) ->
  dep_id d = id /\ synced_of st' id = Some false.
Proof.
  intros HS Hc. destruct HS as [->| ->]; simpl in Hc.
  - injection Hc as <- <-. split; [reflexivity|].
    unfold synced_of; simpl. rewrite find_map_set_key_eq by reflexivity. reflexivity.
  - unfold DrizzleStorage.createDeparture in Hc.
    destruct (negb _); [discriminate|]. destruct (negb _); [discriminate|].
    destruct (existsb (fun d => String.eqb (dep_id d) id) (locationDepartures st)) eqn:Ex;
      [discriminate|].
    injection Hc as <- <-. split; [reflexivity|].
    unfold synced_of; simpl.
    rewrite find_app_single; [reflexivity|apply existsb_false_find; exact Ex|].
    apply String.eqb_refl.
Qed.

Lemma markDepartureSynced_sets (pg : DrizzleStorage.pg_checks) (S : Store) (st : db)
  (id : string) (b : bool) :
  S = MemStorage.store \/ S = DrizzleStorage.store pg ->
  synced_of st id = Some b -> synced_of (markDepartureSynced S st id) id = Some true.
Proof.
  intros HS Hs. unfold synced_of in *.
  destruct (find (fun d => String.eqb (dep_id d) id) (locationDepartures st)) as [e|] eqn:Hf;
    [|discriminate].
  destruct HS as [->| ->]; simpl.
  - unfold MemStorage.markDepartureSynced. rewrite Hf. simpl.
    rewrite find_map_set_key_eq; [reflexivity|].
    apply find_some in Hf. destruct Hf as [_ Hid]. apply String.eqb_eq. exact Hid.
  - unfold DrizzleStorage.markDepartureSynced; simpl.
    rewrite (find_map_update dep_id set_departure_synced id) by (intros; reflexivity).
    rewrite Hf. reflexivity.
Qed.

(** In both stores, when the breadcrumb route creates a departure it
    answers 201 whatever the outcome of the immediate publication; the
    departure is stored with [synced = true] when the publication
    resolves and stays [synced = false] when it throws. *)
Theorem append_departure_synced_iff_published
  (parseFloat : string -> R) (numberToString : R -> string)
  (syncToGoogleSheets : departure -> result unit) (pg : DrizzleStorage.pg_checks)
  (S : Store) (st : db) (sid : string) (body : breadcrumb_body)
  (bcId depId : string) (now : Z) (d : departure) :
  S = MemStorage.store \/ S = DrizzleStorage.store pg ->
  let o := append_breadcrumb parseFloat numberToString syncToGoogleSheets S st sid body
             bcId depId now in
  ao_departure o = Some d ->
  ao_status o = 201
  /\ synced_of (ao_db o) (dep_id d) = Some (negb (is_failure (syncToGoogleSheets d))).
Proof.
  intros HS o. subst o. unfold append_breadcrumb.
  destruct (parse_breadcrumb sid body) as [ins|]; simpl; [|discriminate].
  destruct (createBreadcrumb S st ins bcId now) as [[st1 bc]|m]; simpl; [|discriminate].
  destruct (previous_breadcrumb (getBreadcrumbsByTimeEntry S st1 sid)) as [prev|];
    simpl; [|discriminate].
  destruct (Rlt_dec 100 (breadcrumb_distance parseFloat prev bc)); simpl; [|discriminate].
  destruct (createDeparture S st1 (departure_insert parseFloat numberToString sid prev bc) depId now)
    as [[st2 dep]|m] eqn:Ec; simpl; [|discriminate].
  intros Hd. injection Hd as <-. split; [reflexivity|].
  destruct (createDeparture_synced_false pg S _ _ _ _ _ _ HS Ec) as [Hid Hsyn].
  rewrite Hid.
  destruct (syncToGoogleSheets dep); simpl.
  - exact (markDepartureSynced_sets pg S st2 depId false HS Hsyn).
  - exact Hsyn.
Qed.

Lemma append_departure_synced_iff_published_witness :
  exists d,
    ao_departure (append_breadcrumb (fun s => if String.eqb s "40.0010" then 1%R else 0%R)
                    (fun _ => "111000") (fun _ => Throw None) MemStorage.store st_one_crumb "s1"
                    (body_at "40.0010" "-75.0000") "b2" "d1" 2000) = Some d
    /\ synced_of (ao_db (append_breadcrumb (fun s => if String.eqb s "40.0010" then 1%R else 0%R)
                    (fun _ => "111000") (fun _ => Throw None) MemStorage.store st_one_crumb "s1"
                    (body_at "40.0010" "-75.0000") "b2" "d1" 2000)) (dep_id d) = Some false.
Proof.
  destruct (ao_departure (append_breadcrumb (fun s => if String.eqb s "40.0010" then 1%R else 0%R)
                    (fun _ => "111000") (fun _ => Throw None) MemStorage.store st_one_crumb "s1"
                    (body_at "40.0010" "-75.0000") "b2" "d1" 2000)) as [d|] eqn:E.
  - exists d. split; [reflexivity|].
    destruct (append_departure_synced_iff_published _ _ _ accept_all MemStorage.store
                _ _ _ _ _ _ d (or_introl eq_refl) E) as [_ Hs].
    exact Hs.
  - exfalso. revert E. cbn -[Rlt_dec breadcrumb_distance].
    destruct (Rlt_dec _ _) as [_|Hn]; [discriminate|]. intros _. apply Hn.
    unfold breadcrumb_distance. cbn -[distance_m]. rewrite distance_m_unit. lra.
Defined.

(** *** Marking departures synced: the two stores, bulk sync *)

Lemma map_mark_none (l : list departure) (id : string) :
  find (fun x => String.eqb (dep_id x) id) l = None ->
  map (fun d => if String.eqb (dep_id d) id then set_departure_synced d else d) l = l.
Proof.
  induction l as [|x l IH]; simpl; [reflexivity|].
  destruct (String.eqb (dep_id x) id); [discriminate|].
  intros H. f_equal. exact (IH H).
Qed.

Lemma map_set_mark_nodup (l : list departure) (id : string) (d : departure) :
  NoDup (map dep_id l) ->
  find (fun x => String.eqb (dep_id x) id) l = Some d ->
  map_set dep_id (set_departure_synced d) l
  = map (fun x => if String.eqb (dep_id x) id then set_departure_synced x else x) l.
Proof.
  induction l as [|x l IH]; simpl; [discriminate|].
  intros Hnd Hf. inversion Hnd as [|? ? Hnotin Hnd']; subst.
  destruct (String.eqb (dep_id x) id) eqn:Ex.
  - injection Hf as <-. rewrite String.eqb_refl. f_equal. symmetry. apply map_mark_none.
    apply String.eqb_eq in Ex. subst id.
    destruct (find (fun y => String.eqb (dep_id y) (dep_id x)) l) as [y|] eqn:Hy; [|reflexivity].
    exfalso. apply find_some in Hy. destruct Hy as [Hy Hid]. apply String.eqb_eq in Hid.
    apply Hnotin. rewrite <- Hid. apply in_map. exact Hy.
  - assert (Hd : dep_id d = id).
    { apply find_some in Hf. apply String.eqb_eq. tauto. }
    change (dep_id (set_departure_synced d)) with (dep_id d). rewrite Hd, Ex.
    f_equal. exact (IH Hnd' Hf).
Qed.

Lemma map_mark_ids_same (l : list departure) (id : string) :
  map dep_id (map (fun x => if String.eqb (dep_id x) id then set_departure_synced x else x) l)
  = map dep_id l.
Proof.
  induction l as [|x l IH]; simpl; [reflexivity|].
  destruct (String.eqb (dep_id x) id); simpl; f_equal; exact IH.
Qed.

(** When the departure ids are distinct (the primary key of
    [location_departures]), [MemStorage.markDepartureSynced] and
    [DrizzleStorage.markDepartureSynced] leave the same table: the row
    with that id gets [synced = true], every other row is unchanged, and an
    unknown id changes nothing. *)
Theorem mem_drizzle_mark_synced_agree (st : db) (id : string) :
  NoDup (map dep_id (locationDepartures st)) ->
  MemStorage.markDepartureSynced st id = DrizzleStorage.markDepartureSynced st id.
Proof.
  intros Hnd. unfold MemStorage.markDepartureSynced, DrizzleStorage.markDepartureSynced.
  destruct (find (fun d => String.eqb (dep_id d) id) (locationDepartures st)) as [d|] eqn:Hf.
  - f_equal. apply map_set_mark_nodup; assumption.
  - rewrite (map_mark_none _ _ Hf). destruct st; reflexivity.
Qed.

Lemma mem_drizzle_mark_synced_agree_witness :
  MemStorage.markDepartureSynced st_two_unsynced "d1"
  = DrizzleStorage.markDepartureSynced st_two_unsynced "d1".
Proof.
  apply mem_drizzle_mark_synced_agree. simpl. repeat constructor; simpl; intuition discriminate.
Defined.

Lemma sync_each_mem_drizzle (sync : departure -> result unit) (pg : DrizzleStorage.pg_checks)
  (st : db) (ds : list departure) :
  NoDup (map dep_id (locationDepartures st)) ->
  sync_each sync MemStorage.store st ds = sync_each sync (DrizzleStorage.store pg) st ds.
Proof.
  revert st. induction ds as [|d ds IH]; intros st Hnd; simpl; [reflexivity|].
  destruct (sync d); simpl.
  - rewrite (mem_drizzle_mark_synced_agree st (dep_id d) Hnd).
    rewrite IH; [reflexivity|]. simpl. rewrite map_mark_ids_same. exact Hnd.
  - rewrite IH by exact Hnd. reflexivity.
Qed.

Lemma unsynced_after_marking (sync : departure -> result unit) (deps uns : list departure) :
  NoDup (map dep_id deps) ->
  (forall x, In x uns <-> In x deps /\ dep_synced x = false) ->
  filter (fun d => negb (dep_synced d)) (map (mark_ids (synced_ids sync uns)) deps)
  = filter (fun d => negb (dep_synced d) && is_failure (sync d)) deps.
Proof.
  intros Hnd Huns. rewrite filter_unsynced_mark_ids.
  apply filter_ext_in. intros x Hx.
  destruct (dep_synced x) eqn:Es; simpl; [reflexivity|].
  assert (Hxu : In x uns) by (apply Huns; tauto).
  destruct (sync x) as [u|m] eqn:Ex; simpl.
  - apply negb_false_iff. apply existsb_exists. exists (dep_id x).
    split; [|apply String.eqb_refl].
    unfold synced_ids. apply in_map. apply filter_In. rewrite Ex. split; [exact Hxu|reflexivity].
  - apply negb_true_iff.
    destruct (existsb (String.eqb (dep_id x)) (synced_ids sync uns)) eqn:E; [|reflexivity].
    exfalso. apply existsb_exists in E. destruct E as (i & Hi & Heq).
    apply String.eqb_eq in Heq. subst i.
    unfold synced_ids in Hi. apply in_map_iff in Hi. destruct Hi as (z & Hz & Hzin).
    apply filter_In in Hzin. destruct Hzin as [Hzu Hok].
    assert (Hzd : In z deps) by (apply Huns in Hzu; tauto).
    assert (z = x) by (apply (NoDup_map_same_key dep_id deps); assumption).
    subst z. rewrite Ex in Hok. discriminate.
Qed.

(** [POST /api/sync-departures] on [MemStorage] (ids distinct): the
    response counts as failed exactly the unsynced departures whose
    publication throws, and afterwards [getUnsyncedDepartures] returns
    exactly those departures, in their original order; the workers,
    sessions and breadcrumbs are untouched. *)
Theorem mem_sync_departures_leaves_failures (sync : departure -> result unit) (st : db) :
  NoDup (map dep_id (locationDepartures st)) ->
  let out := sync_departures sync MemStorage.store st in
  let failed := filter (fun d => negb (dep_synced d) && is_failure (sync d))
                  (locationDepartures st) in
  MemStorage.getUnsyncedDepartures (fst (fst out)) = failed
  /\ failed_count (snd (fst out)) = length failed
  /\ synced_count (snd (fst out))
     = (length (MemStorage.getUnsyncedDepartures st) - length failed)%nat
  /\ employees (fst (fst out)) = employees st
  /\ timeEntries (fst (fst out)) = timeEntries st
  /\ locationBreadcrumbs (fst (fst out)) = locationBreadcrumbs st.
Proof.
  intros Hnd out failed.
  set (uns := MemStorage.getUnsyncedDepartures st).
  assert (Hst : fst (fst out)
                = with_departures st (map (mark_ids (synced_ids sync uns)) (locationDepartures st))).
  { subst out. unfold sync_departures, bulk_sync. simpl.
    rewrite (sync_each_mem_drizzle sync accept_all st _ Hnd).
    apply sync_each_drizzle_state. }
  assert (Hsucc := sync_each_success sync MemStorage.store st uns).
  assert (Hfl : failed = filter (fun d => is_failure (sync d)) uns).
  { subst failed uns. unfold MemStorage.getUnsyncedDepartures.
    rewrite filter_filter_andb. reflexivity. }
  assert (Hfail : failed_count (snd (fst out)) = length failed).
  { subst out. unfold sync_departures, bulk_sync; simpl. fold uns. rewrite Hfl.
    rewrite (length_filter_map_eq sr_success (fun d => negb (is_failure (sync d))) negb _ _ Hsucc).
    f_equal. apply filter_ext. intros d. apply negb_involutive. }
  split; [|split; [exact Hfail|split; [|rewrite Hst; repeat split]]].
  - rewrite Hst. unfold MemStorage.getUnsyncedDepartures. simpl.
    apply unsynced_after_marking; [exact Hnd|].
    intros x. subst uns. unfold MemStorage.getUnsyncedDepartures. rewrite filter_In.
    destruct (dep_synced x); simpl; intuition discriminate.
  - subst out. unfold sync_departures, bulk_sync; simpl. fold uns. rewrite Hfl.
    pose proof (length_filter_map_eq sr_success (fun d => negb (is_failure (sync d))) (fun b => b)
                  _ _ Hsucc) as Hs.
    cbv beta in Hs.
    change (filter sr_success ?l) with (filter (fun x => sr_success x) l).
    rewrite Hs.
    pose proof (filter_length (fun d => negb (is_failure (sync d))) uns) as Hl.
    rewrite (filter_ext (fun x => negb (negb (is_failure (sync x))))
               (fun d => is_failure (sync d)) (fun d => negb_involutive _)) in Hl.
    lia.
Qed.

Lemma mem_sync_departures_leaves_failures_witness :
  MemStorage.getUnsyncedDepartures
    (fst (fst (sync_departures (fun d => if String.eqb (dep_id d) "d1" then Throw None else Ok tt)
                 MemStorage.store st_two_unsynced)))
  = [sample_departure "d1" 1000].
Proof.
  destruct (mem_sync_departures_leaves_failures
              (fun d => if String.eqb (dep_id d) "d1" then Throw None else Ok tt)
              st_two_unsynced) as [H _].
  - simpl. repeat constructor; simpl; intuition discriminate.
  - rewrite H. reflexivity.
Defined.

Lemma Forall2_synced_refl (l : list departure) :
  Forall2 (fun d d' => d' = d \/ d' = set_departure_synced d) l l.
Proof. induction l; constructor; auto. Qed.

Lemma Forall2_synced_trans (l1 l2 l3 : list departure) :
  Forall2 (fun d d' => d' = d \/ d' = set_departure_synced d) l1 l2 ->
  Forall2 (fun d d' => d' = d \/ d' = set_departure_synced d) l2 l3 ->
  Forall2 (fun d d' => d' = d \/ d' = set_departure_synced d) l1 l3.
Proof.
  intros H12. revert l3. induction H12 as [|a b l1 l2 Hab _ IH]; intros l3 H23;
    inversion H23 as [|? c ? l3' Hbc H23']; subst; constructor; [|exact (IH _ H23')].
  destruct Hab as [->| ->], Hbc as [->| ->]; auto.
Qed.

Lemma Forall2_map_set_mark (l : list departure) (id : string) (d : departure) :
  find (fun x => String.eqb (dep_id x) id) l = Some d ->
  Forall2 (fun d d' => d' = d \/ d' = set_departure_synced d) l
    (map_set dep_id (set_departure_synced d) l).
Proof.
  induction l as [|x l IH]; simpl; [discriminate|].
  destruct (String.eqb (dep_id x) id) eqn:Ex.
  - intros H. injection H as <-.
    change (dep_id (set_departure_synced x)) with (dep_id x). rewrite String.eqb_refl.
    constructor; [right; reflexivity|apply Forall2_synced_refl].
  - intros Hf.
    assert (Hd : dep_id d = id) by (apply find_some in Hf; apply String.eqb_eq; tauto).
    change (dep_id (set_departure_synced d)) with (dep_id d). rewrite Hd, Ex.
    constructor; [left; reflexivity|exact (IH Hf)].
Qed.

Lemma markDepartureSynced_rows (pg : DrizzleStorage.pg_checks) (S : Store) (st : db) (id : string) :
  S = MemStorage.store \/ S = DrizzleStorage.store pg ->
  let st' := markDepartureSynced S st id in
  employees st' = employees st /\ timeEntries st' = timeEntries st
  /\ locationBreadcrumbs st' = locationBreadcrumbs st
  /\ Forall2 (fun d d' => d' = d \/ d' = set_departure_synced d)
       (locationDepartures st) (locationDepartures st').
Proof.
  intros HS st'. subst st'. destruct HS as [->| ->]; simpl.
  - unfold MemStorage.markDepartureSynced.
    destruct (find (fun d => String.eqb (dep_id d) id) (locationDepartures st)) as [d|] eqn:Hf;
      simpl; repeat split; try reflexivity.
    + exact (Forall2_map_set_mark _ id d Hf).
    + apply Forall2_synced_refl.
  - unfold DrizzleStorage.markDepartureSynced. simpl. repeat split.
    induction (locationDepartures st) as [|x l IH]; simpl; constructor; [|exact IH].
    destruct (String.eqb (dep_id x) id); auto.
Qed.

(** In both stores, [POST /api/sync-departures] writes nothing but the
    [synced] flag: workers, sessions and breadcrumbs are unchanged, and the
    departure table keeps its rows in place, each row either unchanged or
    the same row with [synced = true]. *)
Theorem bulk_sync_only_sets_synced (sync : departure -> result unit)
  (pg : DrizzleStorage.pg_checks) (S : Store) (st : db) (uns : list departure) :
  S = MemStorage.store \/ S = DrizzleStorage.store pg ->
  let st' := fst (fst (bulk_sync sync S st uns)) in
  employees st' = employees st /\ timeEntries st' = timeEntries st
  /\ locationBreadcrumbs st' = locationBreadcrumbs st
  /\ Forall2 (fun d d' => d' = d \/ d' = set_departure_synced d)
       (locationDepartures st) (locationDepartures st').
Proof.
  intros HS st'. subst st'. unfold bulk_sync. simpl.
  revert st. induction uns as [|d uns IH]; intros st; simpl.
  - repeat split. apply Forall2_synced_refl.
  - destruct (sync d); simpl; [|apply IH].
    destruct (markDepartureSynced_rows pg S st (dep_id d) HS) as (H1 & H2 & H3 & H4).
    destruct (IH (markDepartureSynced S st (dep_id d))) as (I1 & I2 & I3 & I4).
    rewrite I1, I2, I3, H1, H2, H3. repeat split.
    exact (Forall2_synced_trans _ _ _ H4 I4).
Qed.

Lemma bulk_sync_only_sets_synced_witness :
  timeEntries (fst (fst (bulk_sync (fun _ => Ok tt) MemStorage.store st_two_unsynced
                           [sample_departure "d1" 1000])))
  = timeEntries st_two_unsynced.
Proof.
  destruct (bulk_sync_only_sets_synced (fun _ => Ok tt) accept_all MemStorage.store
              st_two_unsynced [sample_departure "d1" 1000] (or_introl eq_refl))
    as (_ & H & _).
  exact H.
Defined.

(** *** Clock-out *)

Lemma find_some_filter_nonempty {A : Type} (p : A -> bool) (l : list A) (x : A) :
  In x l -> p x = true -> filter p l <> [].
Proof.
  intros Hin Hp Hnil. assert (In x (filter p l)) by (apply filter_In; auto).
  rewrite Hnil in H. contradiction.
Qed.

Lemma filter_nil_find_none {A : Type} (p : A -> bool) (l : list A) :
  filter p l = [] -> find p l = None.
Proof.
  intros H. destruct (find p l) as [x|] eqn:E; [|reflexivity].
  apply find_some in E. exfalso. exact (find_some_filter_nonempty p l x (proj1 E) (proj2 E) H).
Qed.

Lemma filter_map_set_clears {A : Type} (key : A -> string) (p : A -> bool) (l : list A)
  (e e' : A) (k : string) :
  (length (filter p l) <= 1)%nat ->
  find (fun x => String.eqb (key x) k) l = Some e -> p e = true -> p e' = false ->
  key e' = k -> filter p (map_set key e' l) = [].
Proof.
  intros Hlen Hf Hpe Hpe' Hk. subst k. induction l as [|x l IH]; simpl in *; [discriminate|].
  destruct (String.eqb (key x) (key e')) eqn:Ex.
  - injection Hf as <-. simpl. rewrite Hpe'. rewrite Hpe in Hlen. simpl in Hlen.
    destruct (filter p l); [reflexivity|simpl in Hlen; lia].
  - simpl. destruct (p x) eqn:Epx.
    + exfalso. apply find_some in Hf. destruct Hf as [Hin _].
      simpl in Hlen. destruct (filter p l) eqn:Efl.
      * exact (find_some_filter_nonempty p l e Hin Hpe Efl).
      * simpl in Hlen. lia.
    + exact (IH Hlen Hf).
Qed.

Lemma filter_map_update_clears {A : Type} (key : A -> string) (p : A -> bool) (f : A -> A)
  (l : list A) (e : A) (k : string) :
  (length (filter p l) <= 1)%nat ->
  find (fun x => String.eqb (key x) k) l = Some e -> p e = true ->
  (forall y, p (f y) = false) ->
  filter p (map (fun y => if String.eqb (key y) k then f y else y) l) = [].
Proof.
  intros Hlen Hf Hpe Hpf. induction l as [|x l IH]; simpl in *; [discriminate|].
  destruct (String.eqb (key x) k) eqn:Ex.
  - injection Hf as <-. rewrite Hpf. rewrite Hpe in Hlen. simpl in Hlen.
    assert (Hnil : filter p l = []) by (destruct (filter p l); [reflexivity|simpl in Hlen; lia]).
    clear -Hnil Hpf. induction l as [|y l IH]; simpl in *; [reflexivity|].
    destruct (p y) eqn:Epy; [discriminate|].
    destruct (String.eqb (key y) k); [rewrite Hpf; exact (IH Hnil)|].
    rewrite Epy. exact (IH Hnil).
  - destruct (p x) eqn:Epx.
    + exfalso. apply find_some in Hf. destruct Hf as [Hin _].
      simpl in Hlen. destruct (filter p l) eqn:Efl.
      * exact (find_some_filter_nonempty p l e Hin Hpe Efl).
      * simpl in Hlen. lia.
    + exact (IH Hlen Hf).
Qed.

(** In both stores, when no worker has two active sessions, a successful
    clock-out (200) of an active session leaves its worker with no active
    session: [getActiveTimeEntry] returns nothing, so the worker can clock
    in again. *)
Theorem clock_out_ends_active_session (pg : DrizzleStorage.pg_checks) (S : Store) (st : db)
  (id : string) (loc : option location) (now : Z) (e : time_entry) (st' : db)
  (r : option time_entry) :
  S = MemStorage.store \/ S = DrizzleStorage.store pg ->
  at_most_one_active st ->
  getTimeEntry S st id = Some e -> is_active e = true ->
  clock_out S st id loc now = (st', 200, r) ->
  count_active st' (te_employeeId e) = 0%nat
  /\ getActiveTimeEntry S st' (te_employeeId e) = None.
Proof.
  intros HS Hone Hget Hact Hout.
  set (p := fun x => String.eqb (te_employeeId x) (te_employeeId e) && is_active x).
  assert (Hlen : (length (filter p (timeEntries st)) <= 1)%nat) by apply Hone.
  assert (Hpe : p e = true) by (subst p; simpl; rewrite String.eqb_refl, Hact; reflexivity).
  assert (Hpf : forall u, upd_isActive u = false ->
                  forall y, p (apply_time_entry_update u y) = false).
  { intros u Hu y. subst p. simpl. unfold is_active. simpl. rewrite Hu.
    apply andb_false_r. }
  assert (Hpf' : forall u, upd_isActive u = false ->
                   forall y, p (DrizzleStorage.apply_set u y) = false).
  { intros u Hu y. subst p. simpl. unfold is_active. simpl. rewrite Hu.
    apply andb_false_r. }
  assert (Hnil : filter p (timeEntries st') = []).
  { destruct HS as [-> | ->]; simpl in Hget; unfold clock_out in Hout; simpl in Hout;
      rewrite Hget in Hout;
      destruct (te_clockOutTime e); try discriminate.
    - unfold MemStorage.updateTimeEntry in Hout. rewrite Hget in Hout.
      injection Hout as <- _. simpl.
      apply (filter_map_set_clears te_id p _ e _ id); try assumption.
      + apply Hpf. reflexivity.
      + apply find_some in Hget. apply String.eqb_eq. simpl. tauto.
    - unfold DrizzleStorage.updateTimeEntry in Hout.
      destruct (negb _); [discriminate|].
      injection Hout as <- _. simpl.
      apply (filter_map_update_clears te_id p _ _ e id); try assumption.
      apply Hpf'. reflexivity. }
  split.
  - unfold count_active. fold p. rewrite Hnil. reflexivity.
  - destruct HS as [-> | ->]; simpl; apply filter_nil_find_none; exact Hnil.
Qed.

Lemma clock_out_ends_active_session_witness :
  DrizzleStorage.getActiveTimeEntry
    (fst (fst (clock_out (DrizzleStorage.store accept_all) st_two_unsynced "s1" None 3600000)))
    "e1" = None.
Proof.
  destruct (clock_out (DrizzleStorage.store accept_all) st_two_unsynced "s1" None 3600000)
    as [[st' c] r] eqn:Hout.
  assert (Hc : c = 200) by (vm_compute in Hout; congruence). subst c.
  destruct (clock_out_ends_active_session accept_all (DrizzleStorage.store accept_all)
              st_two_unsynced "s1" None 3600000 (open_entry "s1" "e1" 0) st' r
              (or_intror eq_refl))
    as [_ H].
  - intros emp. unfold count_active. cbn -[String.eqb]. destruct (String.eqb _ emp); simpl; lia.
  - reflexivity.
  - reflexivity.
  - exact Hout.
  - exact H.
Defined.
